(** * stringsvc: a shallow embedding of [main.go]

    The program is a go-kit microservice with two string operations
    ([Uppercase], [Count]) behind endpoint adapters; its second revision
    decorates the service with a logging and an instrumenting middleware
    (the service, the endpoints and the decoders are the same in both
    revisions).  Go strings are byte sequences, so they
    are embedded as [string] (a list of 8-bit [ascii]); Go's [int] and
    [time.Duration] are embedded as [Z]; [float64] is the binary64 format of
    [SpecFloat].  The [context.Context] argument is threaded through every
    method of the source without ever being inspected and is left out. *)

From Stdlib Require Import ZArith List String Ascii Bool Lia.
From Stdlib Require Import Floats.SpecFloat.
Import ListNotations.

Open Scope string_scope.
Open Scope Z_scope.

(** ** Go values *)

(** An [error] interface value: [nil], or a value whose [Error()] method
    returns the text it was built from ([errors.New]). *)
Inductive error : Type :=
| nil_error
| errors_New (text : string).

Definition is_nil (err : error) : bool :=
  match err with nil_error => true | errors_New _ => false end.

(** [err.Error()]; the source calls it only under [err != nil]. *)
Definition Error (err : error) : string :=
  match err with nil_error => "" | errors_New text => text end.

Definition byte_val (c : ascii) : Z := Z.of_N (N_of_ascii c).

Definition byte_of (z : Z) : ascii := ascii_of_N (Z.to_N z).

Definition in_range (lo hi x : Z) : bool := (lo <=? x) && (x <=? hi).

(** [len(s)]: the number of bytes of [s]. *)
Definition len (s : string) : Z := Z.of_nat (String.length s).

(** [s == ""] *)
Definition is_empty (s : string) : bool :=
  match s with EmptyString => true | String _ _ => false end.

Fixpoint map_bytes (f : ascii -> ascii) (s : string) : string :=
  match s with
  | EmptyString => EmptyString
  | String c rest => String (f c) (map_bytes f rest)
  end.

Fixpoint all_bytes (p : ascii -> bool) (s : string) : bool :=
  match s with
  | EmptyString => true
  | String c rest => p c && all_bytes p rest
  end.

Fixpoint any_byte (p : ascii -> bool) (s : string) : bool :=
  match s with
  | EmptyString => false
  | String c rest => p c || any_byte p rest
  end.

(** ** Package [unicode/utf8] of the Go library *)
Module utf8.

Definition RuneError : Z := 0xFFFD.
Definition RuneSelf : Z := 0x80.
Definition MaxRune : Z := 0x10FFFF.

Definition is_cont (lo hi : Z) (c : ascii) : bool := in_range lo hi (byte_val c).

Definition low6 (c : ascii) : Z := Z.land (byte_val c) 0x3F.

(** [utf8.DecodeRuneInString]: the first rune of [s] and its width in bytes;
    [(RuneError, 0)] on the empty string and [(RuneError, 1)] on an
    ill-formed or truncated encoding. *)
Definition DecodeRuneInString (s : string) : Z * nat :=
  match s with
  | EmptyString => (RuneError, 0%nat)
  | String b0 rest =>
    let x := byte_val b0 in
    if x <? RuneSelf then (x, 1%nat)
    else if in_range 0xC2 0xDF x then
      match rest with
      | String b1 _ =>
        if is_cont 0x80 0xBF b1
        then (Z.lor (Z.shiftl (Z.land x 0x1F) 6) (low6 b1), 2%nat)
        else (RuneError, 1%nat)
      | _ => (RuneError, 1%nat)
      end
    else if in_range 0xE0 0xEF x then
      let lo := if x =? 0xE0 then 0xA0 else 0x80 in
      let hi := if x =? 0xED then 0x9F else 0xBF in
      match rest with
      | String b1 (String b2 _) =>
        if is_cont lo hi b1 && is_cont 0x80 0xBF b2
        then (Z.lor (Z.shiftl (Z.land x 0x0F) 12)
                (Z.lor (Z.shiftl (low6 b1) 6) (low6 b2)), 3%nat)
        else (RuneError, 1%nat)
      | _ => (RuneError, 1%nat)
      end
    else if in_range 0xF0 0xF4 x then
      let lo := if x =? 0xF0 then 0x90 else 0x80 in
      let hi := if x =? 0xF4 then 0x8F else 0xBF in
      match rest with
      | String b1 (String b2 (String b3 _)) =>
        if is_cont lo hi b1 && is_cont 0x80 0xBF b2 && is_cont 0x80 0xBF b3
        then (Z.lor (Z.shiftl (Z.land x 0x07) 18)
                (Z.lor (Z.shiftl (low6 b1) 12)
                   (Z.lor (Z.shiftl (low6 b2) 6) (low6 b3))), 4%nat)
        else (RuneError, 1%nat)
      | _ => (RuneError, 1%nat)
      end
    else (RuneError, 1%nat)
  end.

(** The runes of [s] in order, as a [for _, r := range s] loop yields them.
    [skip] counts the bytes still belonging to the rune decoded last. *)
Fixpoint runes_from (skip : nat) (s : string) : list Z :=
  match s with
  | EmptyString => []
  | String _ rest =>
    match skip with
    | S k => runes_from k rest
    | O => let (r, size) := DecodeRuneInString s in
           r :: runes_from (Nat.pred size) rest
    end
  end.

Definition runes (s : string) : list Z := runes_from 0 s.

(** [utf8.RuneCountInString]: the number of runes (characters) of [s]. *)
Definition RuneCountInString (s : string) : Z := Z.of_nat (List.length (runes s)).

Definition is_surrogate (r : Z) : bool := in_range 0xD800 0xDFFF r.

(** [utf8.AppendRune] on an empty buffer: the UTF-8 encoding of [r], that of
    [RuneError] when [r] is out of range or a surrogate half. *)
Definition EncodeRune (r : Z) : string :=
  let cont z := byte_of (Z.lor 0x80 (Z.land z 0x3F)) in
  let three z :=
    String (byte_of (Z.lor 0xE0 (Z.shiftr z 12)))
      (String (cont (Z.shiftr z 6)) (String (cont z) EmptyString)) in
  if r <? 0 then three RuneError
  else if r <? 0x80 then String (byte_of r) EmptyString
  else if r <? 0x800 then
    String (byte_of (Z.lor 0xC0 (Z.shiftr r 6))) (String (cont r) EmptyString)
  else if is_surrogate r || (MaxRune <? r) then three RuneError
  else if r <? 0x10000 then three r
  else
    String (byte_of (Z.lor 0xF0 (Z.shiftr r 18)))
      (String (cont (Z.shiftr r 12))
         (String (cont (Z.shiftr r 6)) (String (cont r) EmptyString))).

End utf8.

(** ** [float64], [time] *)

Definition float64 : Type := spec_float.

(** The conversion [float64(n)] of an integer: rounding to nearest, ties to
    even, in binary64. *)
Definition float64_of_int (n : Z) : float64 := binary_normalize 53 1024 n 0 false.

Definition float64_add : float64 -> float64 -> float64 := SFadd 53 1024.
Definition float64_div : float64 -> float64 -> float64 := SFdiv 53 1024.

Module time.

(** A [time.Time] is kept as its monotonic clock reading and a
    [time.Duration] is an [int64], both in nanoseconds. *)
Definition Time : Type := Z.
Definition Duration : Type := Z.

Definition Second : Duration := 1000000000.
Definition minDuration : Duration := - 2 ^ 63.
Definition maxDuration : Duration := 2 ^ 63 - 1.

(** [t.Sub(u)]: the difference, saturated to the range of [Duration]. *)
Definition Sub (t u : Time) : Duration :=
  Z.max minDuration (Z.min maxDuration (t - u)).

(** [d.Seconds()]: [float64(sec) + float64(nsec)/1e9] with
    [sec := d / Second] and [nsec := d % Second] (truncated division). *)
Definition Seconds (d : Duration) : float64 :=
  let sec := Z.quot d Second in
  let nsec := Z.rem d Second in
  float64_add (float64_of_int sec)
              (float64_div (float64_of_int nsec) (float64_of_int 1000000000)).

End time.

(** ** Request and response structs *)

Module uppercaseRequest.
Record t : Type := mk { S : string }.
End uppercaseRequest.

Module uppercaseResponse.
Record t : Type := mk { V : string; Err : string }.
End uppercaseResponse.

Module countRequest.
Record t : Type := mk { S : string }.
End countRequest.

Module countResponse.
Record t : Type := mk { V : Z; Err : string }.
End countResponse.

(** An [interface{}] value, with the dynamic types this program stores in
    one.  A nil [error] converted to [interface{}] is the nil interface. *)
Inductive any : Type :=
| any_nil
| any_string (s : string)
| any_int (n : Z)
| any_error (text : string)
| any_Duration (d : time.Duration)
| any_uppercaseRequest (r : uppercaseRequest.t)
| any_uppercaseResponse (r : uppercaseResponse.t)
| any_countRequest (r : countRequest.t)
| any_countResponse (r : countResponse.t).

Definition any_of_error (err : error) : any :=
  match err with
  | nil_error => any_nil
  | errors_New text => any_error text
  end.

(** ** The collaborators: logger, metrics, clock *)

Inductive Writer : Type := os_Stdout | os_Stderr.

(** A [log.Logger]: the logfmt logger of go-kit writing to [w]. *)
Inductive Logger : Type := NewLogfmtLogger (w : Writer).

(** A [metrics.Counter] and a [metrics.Histogram] of the Prometheus backend:
    the fully qualified metric name and the label values given so far. *)
Record Counter : Type := mkCounter { counter_name : string; counter_lvs : list string }.
Record Histogram : Type := mkHistogram { histogram_name : string; histogram_lvs : list string }.

Record Opts : Type :=
  mkOpts { Namespace : string; Subsystem : string; Name : string; Help : string }.

(** [prometheus.BuildFQName]: the non-empty ones of namespace and subsystem
    joined to the name by underscores; the empty string without a name. *)
Definition BuildFQName (o : Opts) : string :=
  if is_empty (Name o) then EmptyString
  else if negb (is_empty (Namespace o)) && negb (is_empty (Subsystem o))
  then (Namespace o ++ "_" ++ Subsystem o ++ "_" ++ Name o)%string
  else if negb (is_empty (Namespace o)) then (Namespace o ++ "_" ++ Name o)%string
  else if negb (is_empty (Subsystem o)) then (Subsystem o ++ "_" ++ Name o)%string
  else Name o.

Definition NewCounterFrom (o : Opts) (labelNames : list string) : Counter :=
  mkCounter (BuildFQName o) [].

Definition NewSummaryFrom (o : Opts) (labelNames : list string) : Histogram :=
  mkHistogram (BuildFQName o) [].

(** [c.With(lvs...)] and [h.With(lvs...)]: the same metric with the label
    values appended. *)
Definition Counter_With (c : Counter) (lvs : list string) : Counter :=
  mkCounter (counter_name c) (counter_lvs c ++ lvs).

Definition Histogram_With (h : Histogram) (lvs : list string) : Histogram :=
  mkHistogram (histogram_name h) (histogram_lvs h ++ lvs).

(** What the program does to its collaborators, in the order it does it. *)
Inductive event : Type :=
| LogEvent (l : Logger) (keyvals : list any)
| AddEvent (c : Counter) (delta : float64)
| ObserveEvent (h : Histogram) (value : float64).

(** The state a call runs in: [clock] gives the successive readings of the
    process clock, [reads] counts the readings taken, [trace] holds the
    events emitted so far, oldest first. *)
Record World : Type :=
  mkWorld { clock : nat -> time.Time; reads : nat; trace : list event }.

Definition emit (e : event) (w : World) : World :=
  mkWorld (clock w) (reads w) (trace w ++ [e]).

(** ** Calls: state passing, with panics *)

Inductive outcome (A : Type) : Type :=
| Returned (a : A)
| Panicked (v : string).

Arguments Returned {A} a.
Arguments Panicked {A} v.

Definition M (A : Type) : Type := World -> outcome A * World.

Definition ret {A : Type} (a : A) : M A := fun w => (Returned a, w).

Definition panic {A : Type} (v : string) : M A := fun w => (Panicked v, w).

Definition bind {A B : Type} (m : M A) (k : A -> M B) : M B :=
  fun w =>
    match m w with
    | (Returned a, w1) => k a w1
    | (Panicked v, w1) => (Panicked v, w1)
    end.

Notation "x <- m ;; k" := (bind m (fun x => k))
  (at level 100, m at next level, right associativity).
Notation "' p <- m ;; k" := (bind m (fun p => k))
  (at level 100, p pattern, m at next level, right associativity).
Notation "m ;;; k" := (bind m (fun _ => k))
  (at level 100, right associativity).

(** A function body [body] with named results and one deferred call:
    [deferred] runs on every way out of [body] and reads the named results,
    which still hold their zero values [zero] when [body] panics before the
    assignment; the panic then goes on. *)
Definition with_defer {A : Type} (zero : A) (body : M A) (deferred : A -> M unit) : M A :=
  fun w =>
    match body w with
    | (Returned a, w1) =>
      match deferred a w1 with
      | (Returned _, w2) => (Returned a, w2)
      | (Panicked v, w2) => (Panicked v, w2)
      end
    | (Panicked v, w1) =>
      match deferred zero w1 with
      | (Returned _, w2) => (Panicked v, w2)
      | (Panicked v', w2) => (Panicked v', w2)
      end
    end.

Definition result {A : Type} (r : outcome A * World) : outcome A := fst r.
Definition final {A : Type} (r : outcome A * World) : World := snd r.

(** [time.Now()] *)
Definition time_Now : M time.Time :=
  fun w => (Returned (clock w (reads w)), mkWorld (clock w) (Datatypes.S (reads w)) (trace w)).

(** [time.Since(t)], that is [time.Now().Sub(t)] *)
Definition time_Since (t : time.Time) : M time.Duration :=
  now <- time_Now ;; ret (time.Sub now t).

(** [logger.Log(keyvals...)]; the source drops the error it returns. *)
Definition Logger_Log (l : Logger) (keyvals : list any) : M unit :=
  fun w => (Returned tt, emit (LogEvent l keyvals) w).

(** [c.Add(delta)] *)
Definition Counter_Add (c : Counter) (delta : float64) : M unit :=
  fun w => (Returned tt, emit (AddEvent c delta) w).

(** [h.Observe(value)] *)
Definition Histogram_Observe (h : Histogram) (value : float64) : M unit :=
  fun w => (Returned tt, emit (ObserveEvent h value) w).

(** [fmt.Sprint(b)] of a [bool] *)
Definition Sprint_bool (b : bool) : string := if b then "true" else "false".

(** ** The service interface *)

Record IStringService : Type :=
  mkService {
    Uppercase : string -> M (string * error);
    Count : string -> M (Z * error)
  }.

(** ** Endpoint adapters *)

(** [endpoint.Endpoint]: [func(ctx, request interface{}) (interface{}, error)] *)
Definition Endpoint : Type := any -> M (any * error).

(** The type assertion [request.(T)] panics on a value of another type. *)
Definition assertion_failed {A : Type} : M A := panic "interface conversion".

Definition makeUppercaseEndpoint (svc : IStringService) : Endpoint :=
  fun request =>
    match request with
    | any_uppercaseRequest req =>
      ' (v, err) <- Uppercase svc (uppercaseRequest.S req) ;;
      if is_nil err
      then ret (any_uppercaseResponse (uppercaseResponse.mk v ""), nil_error)
      else ret (any_uppercaseResponse (uppercaseResponse.mk "" (Error err)), nil_error)
    | _ => assertion_failed
    end.

Definition makeCountEndpoint (svc : IStringService) : Endpoint :=
  fun request =>
    match request with
    | any_countRequest req =>
      ' (v, err) <- Count svc (countRequest.S req) ;;
      if is_nil err
      then ret (any_countResponse (countResponse.mk v ""), nil_error)
      else ret (any_countResponse (countResponse.mk (-1) (Error err)), nil_error)
    | _ => assertion_failed
    end.

(** ** Middlewares *)

Module loggingMiddleware.
Record t : Type := mk { logger : Logger; next : IStringService }.
End loggingMiddleware.

Definition loggingMiddleware_Uppercase (mw : loggingMiddleware.t) (s : string)
  : M (string * error) :=
  begin <- time_Now ;;
  with_defer ("", nil_error)
    (Uppercase (loggingMiddleware.next mw) s)
    (fun '(output, err) =>
       took <- time_Since begin ;;
       Logger_Log (loggingMiddleware.logger mw)
         [ any_string "method"; any_string "uppercase";
           any_string "input"; any_string s;
           any_string "output"; any_string output;
           any_string "err"; any_of_error err;
           any_string "took"; any_Duration took ]).

Definition loggingMiddleware_Count (mw : loggingMiddleware.t) (s : string)
  : M (Z * error) :=
  begin <- time_Now ;;
  with_defer (0, nil_error)
    (Count (loggingMiddleware.next mw) s)
    (fun '(n, err) =>
       took <- time_Since begin ;;
       Logger_Log (loggingMiddleware.logger mw)
         [ any_string "method"; any_string "count";
           any_string "input"; any_string s;
           any_string "n"; any_int n;
           any_string "took"; any_Duration took ]).

(** [loggingMiddleware] implements [IStringService]. *)
Definition logging (mw : loggingMiddleware.t) : IStringService :=
  mkService (loggingMiddleware_Uppercase mw) (loggingMiddleware_Count mw).

Module instrumentingMiddleware.
Record t : Type :=
  mk { requestCount : Counter;
       requestLatency : Histogram;
       countResult : Histogram;
       next : IStringService }.
End instrumentingMiddleware.

Definition instrumentingMiddleware_Uppercase (mw : instrumentingMiddleware.t) (s : string)
  : M (string * error) :=
  begin <- time_Now ;;
  with_defer ("", nil_error)
    (Uppercase (instrumentingMiddleware.next mw) s)
    (fun '(output, err) =>
       let lvs := ["method"; "uppercase"; "error"; Sprint_bool (negb (is_nil err))] in
       Counter_Add (Counter_With (instrumentingMiddleware.requestCount mw) lvs)
                   (float64_of_int 1) ;;;
       took <- time_Since begin ;;
       Histogram_Observe (Histogram_With (instrumentingMiddleware.requestLatency mw) lvs)
                         (time.Seconds took)).

Definition instrumentingMiddleware_Count (mw : instrumentingMiddleware.t) (s : string)
  : M (Z * error) :=
  begin <- time_Now ;;
  with_defer (0, nil_error)
    (Count (instrumentingMiddleware.next mw) s)
    (fun '(n, err) =>
       let lvs := ["method"; "count"; "error"; "false"] in
       Counter_Add (Counter_With (instrumentingMiddleware.requestCount mw) lvs)
                   (float64_of_int 1) ;;;
       took <- time_Since begin ;;
       Histogram_Observe (Histogram_With (instrumentingMiddleware.requestLatency mw) lvs)
                         (time.Seconds took) ;;;
       Histogram_Observe (instrumentingMiddleware.countResult mw) (float64_of_int n)).

(** [instrumentingMiddleware] implements [IStringService]. *)
Definition instrumenting (mw : instrumentingMiddleware.t) : IStringService :=
  mkService (instrumentingMiddleware_Uppercase mw) (instrumentingMiddleware_Count mw).

(** ** Package [encoding/json] of the Go library, as far as the decoders of
    this program use it: one JSON value is scanned from the body and stored
    into a struct whose only field is [S string `json:"s"`]. *)
Module json.

#[local] Unset Elimination Schemes.
Inductive value : Type :=
| Null
| Bool (b : bool)
| Number (literal : string)
| Str (s : string)
| Array (elements : list value)
| Object (members : list (string * value)).
#[local] Set Elimination Schemes.

Inductive token : Type :=
| TLBrace | TRBrace | TLBrack | TRBrack | TColon | TComma
| TNull | TTrue | TFalse
| TNumber (literal : string)
| TString (s : string)
| TInvalid      (* a byte no JSON text can continue with *)
| TTruncated (first : ascii).
                (* the input ends inside the token that [first] begins *)

(** The double quote, byte 34. *)
Definition dquote : ascii := byte_of 34.

Definition is_space (c : ascii) : bool :=
  match c with
  | " "%char | "009"%char | "010"%char | "013"%char => true
  | _ => false
  end.

Definition is_digit (c : ascii) : bool := in_range 48 57 (byte_val c).

Definition hex_digit (c : ascii) : option Z :=
  let x := byte_val c in
  if in_range 48 57 x then Some (x - 48)
  else if in_range 97 102 x then Some (x - 87)
  else if in_range 65 70 x then Some (x - 55)
  else None.

(** [null], [true], [false]: [lit] is what is left of the literal that
    [first] began. *)
Fixpoint lex_literal (first : ascii) (lit : string) (t : token) (width : nat) (s : string)
  : token * nat :=
  match lit with
  | EmptyString => (t, width)
  | String l lit' =>
    match s with
    | EmptyString => (TTruncated first, width)
    | String c rest =>
      if Ascii.eqb c l then lex_literal first lit' t (Datatypes.S width) rest
      else (TInvalid, width)
    end
  end.

(** Numbers: the states of the scanner inside a numeric literal. *)
Inductive nstate : Type :=
| NSign    (* after "-" *)
| NZero    (* after a leading "0" *)
| NInt     (* inside the integer digits *)
| NDot     (* after "." *)
| NFrac    (* inside the fraction digits *)
| NE       (* after "e" or "E" *)
| NESign   (* after the sign of the exponent *)
| NExp.    (* inside the exponent digits *)

Definition number_may_end (st : nstate) : bool :=
  match st with
  | NZero | NInt | NFrac | NExp => true
  | _ => false
  end.

Definition nstep (st : nstate) (c : ascii) : option nstate :=
  let dot_or_e :=
    match c with
    | "."%char => Some NDot
    | "e"%char | "E"%char => Some NE
    | _ => None
    end in
  match st with
  | NSign => if Ascii.eqb c "0" then Some NZero else if is_digit c then Some NInt else None
  | NZero => dot_or_e
  | NInt => if is_digit c then Some NInt else dot_or_e
  | NDot => if is_digit c then Some NFrac else None
  | NFrac =>
    if is_digit c then Some NFrac
    else match c with "e"%char | "E"%char => Some NE | _ => None end
  | NE =>
    match c with
    | "+"%char | "-"%char => Some NESign
    | _ => if is_digit c then Some NExp else None
    end
  | NESign => if is_digit c then Some NExp else None
  | NExp => if is_digit c then Some NExp else None
  end.

(** The width of the numeric literal at the head of [s], or why there is
    none. *)
Fixpoint lex_number (st : nstate) (width : nat) (s : string) : option nat * bool :=
  match s with
  | EmptyString => if number_may_end st then (Some width, false) else (None, true)
  | String c rest =>
    match nstep st c with
    | Some st' => lex_number st' (Datatypes.S width) rest
    | None => if number_may_end st then (Some width, false) else (None, false)
    end
  end.

(** Strings: a byte copied from the input, or the UTF-16 code unit of a
    [\uXXXX] escape. *)
Inductive item : Type :=
| Raw (c : ascii)
| Unit16 (u : Z).

Inductive sstate : Type :=
| SText
| SEscape
| SHex (digits : nat) (acc : Z).

Fixpoint lex_string (st : sstate) (acc : list item) (width : nat) (s : string)
  : option (list item * nat) * bool :=
  match s with
  | EmptyString => (None, true)
  | String c rest =>
    let w := Datatypes.S width in
    match st with
    | SText =>
      if Ascii.eqb c dquote then (Some (rev acc, w), false)
      else if Ascii.eqb c "\" then lex_string SEscape acc w rest
      else if byte_val c <? 32 then (None, false)
      else lex_string SText (Raw c :: acc) w rest
    | SEscape =>
      let simple b := lex_string SText (Raw b :: acc) w rest in
      if Ascii.eqb c dquote then simple c else
      match c with
      | "\"%char | "/"%char => simple c
      | "b"%char => simple "008"%char
      | "f"%char => simple "012"%char
      | "n"%char => simple "010"%char
      | "r"%char => simple "013"%char
      | "t"%char => simple "009"%char
      | "u"%char => lex_string (SHex 4 0) acc w rest
      | _ => (None, false)
      end
    | SHex digits v =>
      match hex_digit c with
      | None => (None, false)
      | Some d =>
        let v' := 16 * v + d in
        match digits with
        | 1%nat => lex_string SText (Unit16 v' :: acc) w rest
        | _ => lex_string (SHex (Nat.pred digits) v') acc w rest
        end
      end
    end
  end.

(** [utf16.DecodeRune] on a surrogate pair *)
Definition join_surrogates (hi lo : Z) : Z :=
  Z.lor (Z.shiftl (hi - 0xD800) 10) (lo - 0xDC00) + 0x10000.

(** The bytes an unquoted string is made of: escapes are replaced by the
    UTF-8 encoding of their rune, a surrogate pair by that of the rune it
    stands for, a lone surrogate by that of U+FFFD. *)
Fixpoint unquote_items (l : list item) : string :=
  match l with
  | [] => EmptyString
  | Raw c :: l' => String c (unquote_items l')
  | Unit16 u :: l' =>
    if in_range 0xD800 0xDBFF u then
      match l' with
      | Unit16 u2 :: l'' =>
        if in_range 0xDC00 0xDFFF u2
        then (utf8.EncodeRune (join_surrogates u u2) ++ unquote_items l'')%string
        else (utf8.EncodeRune utf8.RuneError ++ unquote_items l')%string
      | _ => (utf8.EncodeRune utf8.RuneError ++ unquote_items l')%string
      end
    else (utf8.EncodeRune u ++ unquote_items l')%string
  end.

(** Ill-formed UTF-8 in a string is replaced by U+FFFD. *)
Definition to_valid_utf8 (s : string) : string :=
  String.concat "" (map utf8.EncodeRune (utf8.runes s)).

Definition unquote (l : list item) : string := to_valid_utf8 (unquote_items l).

(** The token at the head of [s] (not a space) and its width in bytes. *)
Definition lex_token (s : string) : token * nat :=
  match s with
  | EmptyString => (TInvalid, 0%nat)
  | String c rest =>
    let number st :=
      match lex_number st 1 rest with
      | (Some width, _) => (TNumber (substring 0 width s), width)
      | (None, true) => (TTruncated c, 0%nat)
      | (None, false) => (TInvalid, 0%nat)
      end in
    match c with
    | "{"%char => (TLBrace, 1%nat)
    | "}"%char => (TRBrace, 1%nat)
    | "["%char => (TLBrack, 1%nat)
    | "]"%char => (TRBrack, 1%nat)
    | ":"%char => (TColon, 1%nat)
    | ","%char => (TComma, 1%nat)
    | "n"%char => lex_literal c "ull" TNull 1 rest
    | "t"%char => lex_literal c "rue" TTrue 1 rest
    | "f"%char => lex_literal c "alse" TFalse 1 rest
    | "-"%char => number NSign
    | "0"%char => number NZero
    | _ =>
      if Ascii.eqb c dquote then
        match lex_string SText [] 1 rest with
        | (Some (items, width), _) => (TString (unquote items), width)
        | (None, true) => (TTruncated c, 0%nat)
        | (None, false) => (TInvalid, 0%nat)
        end
      else if is_digit c then number NInt
      else (TInvalid, 0%nat)
    end
  end.

(** The tokens of [s] up to the first one that cannot be read.  [skip]
    counts the bytes still belonging to the token read last. *)
Fixpoint tokens_from (skip : nat) (s : string) : list token :=
  match s with
  | EmptyString => []
  | String c rest =>
    match skip with
    | Datatypes.S k => tokens_from k rest
    | O =>
      if is_space c then tokens_from 0 rest
      else
        let (t, width) := lex_token s in
        match t with
        | TInvalid | TTruncated _ => [t]
        | _ => t :: tokens_from (Nat.pred width) rest
        end
    end
  end.

Definition tokens (s : string) : list token := tokens_from 0 s.

(** The parser: a stack of the arrays and objects still open, innermost
    first, each with what it holds so far in reverse order.  Its verdicts
    are those of the library's byte-by-byte scanner: a value, no input at
    all, input that ends early, or a syntax error (a byte that may not stand
    where it does, or nesting beyond [maxNestingDepth]). *)
Inductive frame : Type :=
| FArray (elements : list value)
| FObject (members : list (string * value)) (key : option string).

Inductive mode : Type :=
| MValue          (* a value must follow *)
| MValueOrClose   (* just after "[" *)
| MAfterValue     (* "," or the closing bracket must follow *)
| MKey            (* a member name must follow *)
| MKeyOrClose     (* just after "{" *)
| MColon.         (* ":" must follow *)

Inductive scanned : Type :=
| Scanned (v : value)
| AtEOF             (* no value at all: [io.EOF] *)
| UnexpectedEOF     (* the input ends inside a value: [io.ErrUnexpectedEOF] *)
| SyntaxError.

(** A finished value goes into the innermost open array or object; with none
    open it is the value looked for. *)
Definition deliver (v : value) (stack : list frame) : option (value + list frame) :=
  match stack with
  | [] => Some (inl v)
  | FArray es :: st => Some (inr (FArray (v :: es) :: st))
  | FObject ms (Some k) :: st => Some (inr (FObject ((k, v) :: ms) None :: st))
  | FObject _ None :: _ => None
  end.

(** The scanner refuses arrays and objects nested deeper than this. *)
Definition maxNestingDepth : Z := 10000.

(** Whether one more array or object may be opened inside those of [stack]. *)
Definition within_depth (stack : list frame) : bool :=
  Z.of_nat (List.length stack) + 1 <=? maxNestingDepth.

(** Whether a token beginning with [first] may stand where the parser is:
    the scanner reads byte by byte, so where it may not, the first byte is
    already a syntax error, and where it may, the input just ends early.
    (Only literals, numbers and strings can be cut short.) *)
Definition may_begin (m : mode) (first : ascii) : bool :=
  match m with
  | MValue | MValueOrClose => true
  | MKey | MKeyOrClose => Ascii.eqb first dquote
  | MAfterValue | MColon => false
  end.

Definition scalar_of (t : token) : option value :=
  match t with
  | TNull => Some Null
  | TTrue => Some (Bool true)
  | TFalse => Some (Bool false)
  | TNumber lit => Some (Number lit)
  | TString s => Some (Str s)
  | _ => None
  end.

Fixpoint parse (stack : list frame) (m : mode) (ts : list token) : scanned :=
  match ts with
  | [] => match stack, m with [], MValue => AtEOF | _, _ => UnexpectedEOF end
  | TTruncated first :: _ => if may_begin m first then UnexpectedEOF else SyntaxError
  | t :: ts' =>
    let finish v :=
      match deliver v stack with
      | Some (inl top) => Scanned top
      | Some (inr stack') => parse stack' MAfterValue ts'
      | None => SyntaxError
      end in
    let close v :=
      match deliver v (tl stack) with
      | Some (inl top) => Scanned top
      | Some (inr stack') => parse stack' MAfterValue ts'
      | None => SyntaxError
      end in
    match m, t, stack with
    | (MValue | MValueOrClose), TLBrace, _ =>
      if within_depth stack then parse (FObject [] None :: stack) MKeyOrClose ts'
      else SyntaxError
    | (MValue | MValueOrClose), TLBrack, _ =>
      if within_depth stack then parse (FArray [] :: stack) MValueOrClose ts'
      else SyntaxError
    | MValueOrClose, TRBrack, FArray es :: _ => close (Array (rev es))
    | (MValue | MValueOrClose), _, _ =>
      match scalar_of t with
      | Some v => finish v
      | None => SyntaxError
      end
    | MAfterValue, TComma, FArray _ :: _ => parse stack MValue ts'
    | MAfterValue, TComma, FObject _ None :: _ => parse stack MKey ts'
    | MAfterValue, TRBrack, FArray es :: _ => close (Array (rev es))
    | MAfterValue, TRBrace, FObject ms None :: _ => close (Object (rev ms))
    | (MKey | MKeyOrClose), TString k, FObject ms None :: st =>
      parse (FObject ms (Some k) :: st) MColon ts'
    | MKeyOrClose, TRBrace, FObject ms None :: _ => close (Object (rev ms))
    | MColon, TColon, _ => parse stack MValue ts'
    | _, _, _ => SyntaxError
    end
  end.

(** The first JSON value of a body; what follows it is not looked at. *)
Definition scan (body : string) : scanned := parse [] MValue (tokens body).

(** Whether the member name [key] selects the struct field tagged ["s"]: the
    match is exact or under Unicode simple case folding, whose orbit of "s"
    is s, S and U+017F (in UTF-8: C5 BF). *)
Definition selects_s (key : string) : bool :=
  String.eqb key "s" || String.eqb key "S"
  || String.eqb key (String (byte_of 0xC5) (String (byte_of 0xBF) EmptyString)).

(** A [*json.UnmarshalTypeError].  The library's message names the JSON
    kind and the Go type; the model keeps one message for all of them, and
    nothing below depends on more than the error not being nil. *)
Definition UnmarshalTypeError : error :=
  errors_New "json: cannot unmarshal value into Go struct field of type string".

(** Storing a JSON value into a [string] field: a string is stored, [null]
    leaves the field as it is, anything else is a type error. *)
Definition store_string (v : value) (field : string) : string * error :=
  match v with
  | Str s => (s, nil_error)
  | Null => (field, nil_error)
  | _ => (field, UnmarshalTypeError)
  end.

(** Storing the members of an object, in order: members selecting no field
    are skipped, the first type error is kept and decoding goes on. *)
Fixpoint store_members (ms : list (string * value)) (field : string) (saved : error)
  : string * error :=
  match ms with
  | [] => (field, saved)
  | (k, v) :: ms' =>
    if selects_s k then
      let (field', err) := store_string v field in
      store_members ms' field' (if is_nil saved then err else saved)
    else store_members ms' field saved
  end.

(** [json.Unmarshal] into a pointer to a struct with the one field [S]. *)
Definition unmarshal (v : value) (field : string) : string * error :=
  match v with
  | Object ms => store_members ms field nil_error
  | Null => (field, nil_error)
  | _ => (field, UnmarshalTypeError)
  end.

Definition io_EOF : error := errors_New "EOF".
Definition io_ErrUnexpectedEOF : error := errors_New "unexpected EOF".

(** A [*json.SyntaxError].  The library's message names the offending byte
    and what the scanner was looking for; the model keeps one message for
    all of them, and nothing below depends on more than the error not being
    nil. *)
Definition syntax_error : error := errors_New "invalid character in JSON input".

(** [json.NewDecoder(body).Decode(&request)]: the field [S] of [request]
    after the call, and the error returned. *)
Definition Decode (body : string) (field : string) : string * error :=
  match scan body with
  | Scanned v => unmarshal v field
  | AtEOF => (field, io_EOF)
  | UnexpectedEOF => (field, io_ErrUnexpectedEOF)
  | SyntaxError => (field, syntax_error)
  end.

End json.

(** ** Transport *)

Module http.
Record Request : Type := mkRequest { Body : string }.
End http.

Definition decodeUppercaseRequest (r : http.Request) : any * error :=
  let request := uppercaseRequest.mk "" in
  let (s, err) := json.Decode (http.Body r) (uppercaseRequest.S request) in
  if negb (is_nil err) then (any_nil, err)
  else (any_uppercaseRequest (uppercaseRequest.mk s), nil_error).

Definition decodeCountRequest (r : http.Request) : any * error :=
  let request := countRequest.mk "" in
  let (s, err) := json.Decode (http.Body r) (countRequest.S request) in
  if negb (is_nil err) then (any_nil, err)
  else (any_countRequest (countRequest.mk s), nil_error).

(** What a handler of [httptransport.NewServer] does with a request: a
    failing decoder or endpoint ends in the error encoder, otherwise the
    response object is handed to [encodeResponse]. *)
Inductive served : Type :=
| TransportError (err : error)
| Encoded (response : any).

Definition ServeHTTP (e : Endpoint) (dec : http.Request -> any * error) (r : http.Request)
  : M served :=
  let (request, err) := dec r in
  if negb (is_nil err) then ret (TransportError err)
  else
    ' (response, err) <- e request ;;
    if negb (is_nil err) then ret (TransportError err)
    else ret (Encoded response).

(** ** Package [strings] of the Go library *)

(** [strings.Map]: the runes of [s] mapped one by one and encoded again; a
    rune mapped to a negative value is dropped. *)
Definition strings_Map (mapping : Z -> Z) (s : string) : string :=
  String.concat ""
    (map (fun c => let r := mapping c in
                   if r <? 0 then EmptyString else utf8.EncodeRune r)
         (utf8.runes s)).

Definition is_ascii (c : ascii) : bool := byte_val c <? utf8.RuneSelf.

Definition is_lower (c : ascii) : bool := in_range 97 122 (byte_val c).

(** [c -= 'a' - 'A'] on a lower-case ASCII letter *)
Definition upper_byte (c : ascii) : ascii :=
  if is_lower c then byte_of (byte_val c - 32) else c.

(** Whether the named key occurs in the [keyvals] of a log line, and with
    which value: [keyvals] alternates keys and values. *)
Fixpoint lookup_key (key : string) (keyvals : list any) : option any :=
  match keyvals with
  | any_string k :: v :: keyvals' =>
    if String.eqb k key then Some v else lookup_key key keyvals'
  | _ :: _ :: keyvals' => lookup_key key keyvals'
  | _ => None
  end.

(** The world after one more reading of the clock. *)
Definition tick (w : World) : World := final (time_Now w).

(** What [time.Since(begin)] gives in [w1] when [begin] was read in [w]. *)
Definition elapsed (w w1 : World) : time.Duration :=
  time.Sub (clock w1 (reads w1)) (clock w (reads w)).

(** A request body holding a JSON object none of whose members selects the
    field [S]. *)
Definition omits_s (body : string) : bool :=
  match json.scan body with
  | json.Scanned (json.Object members) =>
    forallb (fun kv => negb (json.selects_s (fst kv))) members
  | _ => false
  end.

(** An endpoint answers in band over [impl] on the input [s]: the call of
    the service returns, the endpoint returns a response object and a nil
    error, a failure of the service is told by the field [Err] (with the
    zero string, or -1, as [V]) and a success by [V] (with [Err] empty). *)
Definition uppercase_in_band (impl : IStringService) (s : string) (w : World) : Prop :=
  exists v err resp w1,
    Uppercase impl s w = (Returned (v, err), w1) /\
    makeUppercaseEndpoint impl (any_uppercaseRequest (uppercaseRequest.mk s)) w
      = (Returned (any_uppercaseResponse resp, nil_error), w1) /\
    (err <> nil_error -> resp = uppercaseResponse.mk "" (Error err)) /\
    (err = nil_error -> resp = uppercaseResponse.mk v "") /\
    (uppercaseResponse.Err resp <> "" <-> err <> nil_error).

Definition count_in_band (impl : IStringService) (s : string) (w : World) : Prop :=
  exists v err resp w1,
    Count impl s w = (Returned (v, err), w1) /\
    makeCountEndpoint impl (any_countRequest (countRequest.mk s)) w
      = (Returned (any_countResponse resp, nil_error), w1) /\
    (err <> nil_error -> resp = countResponse.mk (-1) (Error err)) /\
    (err = nil_error -> resp = countResponse.mk v "") /\
    (countResponse.Err resp <> "" <-> err <> nil_error).

(** A world to run examples in: nothing emitted yet, and a clock that
    advances by a microsecond from one reading to the next. *)
Definition world0 : World := mkWorld (fun n => 1000 * Z.of_nat n) 0 [].

(** The JSON text of a string without special characters, and the body
    [{"s":...}] of a request. *)
Definition quoted (s : string) : string :=
  String json.dquote (s ++ String json.dquote EmptyString).

Definition body_of (s : string) : string :=
  ("{" ++ quoted "s" ++ ":" ++ quoted s ++ "}")%string.

(** The two bytes of U+00E9 (e with acute accent) in UTF-8. *)
Definition e_acute : string :=
  String (byte_of 0xC3) (String (byte_of 0xA9) EmptyString).

(** The upper-casing of runes above ASCII used in the concrete runs:
    none.  The inputs of these runs are ASCII text, on which
    [strings.ToUpper] never consults the case tables. *)
Definition no_case_tables (r : Z) : Z := r.

(** ** Notions the further properties are stated with *)

(** The dynamic type of a request. *)
Definition is_uppercaseRequest (request : any) : bool :=
  match request with any_uppercaseRequest _ => true | _ => false end.

Definition is_countRequest (request : any) : bool :=
  match request with any_countRequest _ => true | _ => false end.

(** An implementation of [IStringService] both of whose methods panic. *)
Definition panicking_service : IStringService :=
  mkService (fun _ => panic "boom") (fun _ => panic "boom").

(** A clock that never runs backwards. *)
Definition monotone_clock (w : World) : Prop :=
  forall i j : nat, (i <= j)%nat -> clock w i <= clock w j.

(** A call that keeps the clock, only takes further readings of it and only
    adds events after those already emitted. *)
Definition appends {A : Type} (m : M A) : Prop :=
  forall w,
    clock (final (m w)) = clock w /\
    (reads w <= reads (final (m w)))%nat /\
    exists events, trace (final (m w)) = (trace w ++ events)%list.

Definition well_behaved (impl : IStringService) : Prop :=
  forall s, appends (Uppercase impl s) /\ appends (Count impl s).

(** A byte that stands for itself inside a JSON string: no control
    character, not the double quote, not the backslash. *)
Definition json_plain (c : ascii) : bool :=
  (32 <=? byte_val c) && negb (Ascii.eqb c json.dquote) && negb (Ascii.eqb c "\").

(** A JSON value a [string] field accepts. *)
Definition storable (v : json.value) : bool :=
  match v with
  | json.Str _ | json.Null => true
  | _ => false
  end.

(** The members of an object that select the field [S] all hold a string or
    [null]. *)
Definition members_storable (ms : list (string * json.value)) : bool :=
  forallb (fun kv => negb (json.selects_s (fst kv)) || storable (snd kv)) ms.

(** A body the decoders accept: its first JSON value is [null] or an object
    whose members for [S] are storable. *)
Definition decodable (body : string) : bool :=
  match json.scan body with
  | json.Scanned json.Null => true
  | json.Scanned (json.Object ms) => members_storable ms
  | _ => false
  end.

(** The string the last string-valued member for [S] holds, [field] when
    there is none. *)
Fixpoint last_s (ms : list (string * json.value)) (field : string) : string :=
  match ms with
  | [] => field
  | (k, json.Str s) :: ms' => if json.selects_s k then last_s ms' s else last_s ms' field
  | _ :: ms' => last_s ms' field
  end.

(** What a decodable body gives the field [S]. *)
Definition decoded_s (body : string) : string :=
  match json.scan body with
  | json.Scanned (json.Object ms) => last_s ms ""
  | _ => ""
  end.

(** ** Canonical JSON texts

    The text of a JSON value as a client would write it without spaces,
    and the values for which that text is written with bytes that stand for
    themselves: the properties of the decoders are stated on these. *)

(** Text a JSON string holds as it is: ASCII without control characters,
    double quote or backslash. *)
Definition plain_text (s : string) : bool :=
  all_bytes json_plain s && all_bytes is_ascii s.

(** A decimal number without sign: 0, or digits not beginning with 0. *)
Definition nat_literal (s : string) : bool :=
  match s with
  | EmptyString => false
  | String c r =>
    if Ascii.eqb c "0" then is_empty r
    else in_range 49 57 (byte_val c) && all_bytes json.is_digit r
  end.

(** An integer literal of JSON. *)
Definition int_literal (s : string) : bool :=
  match s with
  | EmptyString => false
  | String c r => if Ascii.eqb c "-" then nat_literal r else nat_literal s
  end.

(** What follows cannot go on a number: it is empty or begins with a byte
    that is no digit, point or exponent mark. *)
Definition number_ends (rest : string) : bool :=
  match rest with
  | EmptyString => true
  | String c _ =>
    negb (json.is_digit c || Ascii.eqb c "." || Ascii.eqb c "e" || Ascii.eqb c "E")
  end.

(** The JSON text of a value, without spaces. *)
Fixpoint render (v : json.value) : string :=
  match v with
  | json.Null => "null"
  | json.Bool true => "true"
  | json.Bool false => "false"
  | json.Number literal => literal
  | json.Str s => quoted s
  | json.Array vs => "[" ++ String.concat "," (map render vs) ++ "]"
  | json.Object ms =>
    "{" ++ String.concat "," (map (fun kv => quoted (fst kv) ++ ":" ++ render (snd kv)) ms)
        ++ "}"
  end%string.

(** Values whose strings and member names are plain text and whose numbers
    are integer literals. *)
Fixpoint canonical (v : json.value) : bool :=
  match v with
  | json.Null | json.Bool _ => true
  | json.Number literal => int_literal literal
  | json.Str s => plain_text s
  | json.Array vs => forallb canonical vs
  | json.Object ms => forallb (fun kv => plain_text (fst kv) && canonical (snd kv)) ms
  end.

(** How deep arrays and objects are nested in a value. *)
Fixpoint depth (v : json.value) : Z :=
  match v with
  | json.Array vs => 1 + fold_right (fun x d => Z.max (depth x) d) 0 vs
  | json.Object ms => 1 + fold_right (fun kv d => Z.max (depth (snd kv)) d) 0 ms
  | _ => 0
  end.

(** The values a request struct accepts: [null], and an object whose
    members for [S] are storable. *)
Definition accepted (v : json.value) : bool :=
  match v with
  | json.Null => true
  | json.Object ms => members_storable ms
  | _ => false
  end.

(** What an accepted value gives the field [S]. *)
Definition field_of (v : json.value) : string :=
  match v with
  | json.Object ms => last_s ms ""
  | _ => ""
  end.


(** The texts [texts], each after a comma, then the closing byte, then
    [rest]. *)
Fixpoint after (close : ascii) (texts : list string) (rest : string) : string :=
  match texts with
  | [] => String close rest
  | t :: texts' => String "," (t ++ after close texts' rest)
  end.

(** What the parser does with a finished value [v]. *)
Definition resume (v : json.value) (stack : list json.frame) (ts : list json.token)
  : json.scanned :=
  match json.deliver v stack with
  | Some (inl top) => json.Scanned top
  | Some (inr stack') => json.parse stack' json.MAfterValue ts
  | None => json.SyntaxError
  end.

Definition value_mode (m : json.mode) : bool :=
  match m with json.MValue | json.MValueOrClose => true | _ => false end.

Definition key_mode (m : json.mode) : bool :=
  match m with json.MKey | json.MKeyOrClose => true | _ => false end.

(** The text of a member of an object. *)
Definition member_text (kv : string * json.value) : string :=
  (quoted (fst kv) ++ ":" ++ render (snd kv))%string.

(** [k] opening brackets, then [rest]. *)
Fixpoint nest (k : nat) (rest : string) : string :=
  match k with
  | O => rest
  | Datatypes.S k' => String "[" (nest k' rest)
  end.

(** Induction on values: the elements of an array and the values of the
    members of an object come first. *)
Fixpoint value_induction (P : json.value -> Prop)
         (Hnull : P json.Null) (Hbool : forall b, P (json.Bool b))
         (Hnumber : forall literal, P (json.Number literal))
         (Hstr : forall s, P (json.Str s))
         (Harray : forall vs, Forall P vs -> P (json.Array vs))
         (Hobject : forall ms, Forall (fun kv => P (snd kv)) ms -> P (json.Object ms))
         (v : json.value) : P v :=
  match v with
  | json.Null => Hnull
  | json.Bool b => Hbool b
  | json.Number literal => Hnumber literal
  | json.Str s => Hstr s
  | json.Array vs =>
    Harray vs
      ((fix all (l : list json.value) : Forall P l :=
          match l with
          | [] => Forall_nil P
          | x :: l' =>
            Forall_cons x
              (value_induction P Hnull Hbool Hnumber Hstr Harray Hobject x) (all l')
          end) vs)
  | json.Object ms =>
    Hobject ms
      ((fix all (l : list (string * json.value)) : Forall (fun kv => P (snd kv)) l :=
          match l with
          | [] => Forall_nil _
          | kv :: l' =>
            Forall_cons kv
              (value_induction P Hnull Hbool Hnumber Hstr Harray Hobject (snd kv)) (all l')
          end) ms)
  end.

(** What parsing the text of [v] amounts to: the parser goes on as it does
    with a finished value [v]. *)
Definition parses (v : json.value) : Prop :=
  forall stack m rest,
    canonical v = true ->
    value_mode m = true ->
    Z.of_nat (List.length stack) + depth v <= json.maxNestingDepth ->
    number_ends rest = true ->
    json.parse stack m (json.tokens_from 0 (render v ++ rest))
    = resume v stack (json.tokens_from 0 rest).

Section Program.

(** [unicode.To(unicode.UpperCase, r)] for a rune above ASCII: the lookup in
    the case tables of the Go library. *)
Variable To_UpperCase : Z -> Z.

(** [unicode.ToUpper] *)
Definition unicode_ToUpper (r : Z) : Z :=
  if r <=? 0x7F then (if in_range 97 122 r then r - 32 else r)
  else To_UpperCase r.

(** [strings.ToUpper]: a string of ASCII bytes is mapped byte by byte (and
    returned as it is when it has no lower-case letter), any other string
    goes through [strings.Map]. *)
Definition strings_ToUpper (s : string) : string :=
  let isASCII := all_bytes is_ascii s in
  let hasLower := any_byte is_lower s in
  if isASCII then (if negb hasLower then s else map_bytes upper_byte s)
  else strings_Map unicode_ToUpper s.

(** ** The service *)

Definition stringService_Uppercase (s : string) : M (string * error) :=
  if is_empty s then ret ("", errors_New "Empty string")
  else ret (strings_ToUpper s, nil_error).

Definition stringService_Count (s : string) : M (Z * error) :=
  if is_empty s then ret (-1, errors_New "Empty string")
  else ret (len s, nil_error).

(** [stringService] implements [IStringService]. *)
Definition stringService : IStringService :=
  mkService stringService_Uppercase stringService_Count.

(** ** [main]: the wiring *)

Definition logger : Logger := NewLogfmtLogger os_Stderr.

Definition fieldKeys : list string := ["method"; "error"].

Definition requestCount : Counter :=
  NewCounterFrom
    (mkOpts "my_group" "string_service" "request_count"
            "Number of requests received.")
    fieldKeys.

Definition requestLatency : Histogram :=
  NewSummaryFrom
    (mkOpts "my_group" "string_service" "request_latency_microseconds"
            "Total duration of requests in microseconds.")
    fieldKeys.

Definition countResult : Histogram :=
  NewSummaryFrom
    (mkOpts "my_group" "string_service" "count_result"
            "The result of each count method.")
    [].

(** [svc = stringService{}], then wrapped by [loggingMiddleware], then by
    [instrumentingMiddleware]. *)
Definition svc : IStringService :=
  instrumenting
    (instrumentingMiddleware.mk requestCount requestLatency countResult
       (logging (loggingMiddleware.mk logger stringService))).

Definition uppercaseEndpoint : Endpoint := makeUppercaseEndpoint svc.
Definition countEnpoint : Endpoint := makeCountEndpoint svc.

Definition uppercaseHandler : http.Request -> M served :=
  ServeHTTP uppercaseEndpoint decodeUppercaseRequest.

Definition countHandler : http.Request -> M served :=
  ServeHTTP countEnpoint decodeCountRequest.

(** The first revision of [main] serves the bare [stringService]. *)
Definition bare_uppercaseHandler : http.Request -> M served :=
  ServeHTTP (makeUppercaseEndpoint stringService) decodeUppercaseRequest.

Definition bare_countHandler : http.Request -> M served :=
  ServeHTTP (makeCountEndpoint stringService) decodeCountRequest.


(** * Properties *)

(** ** Strings *)

Lemma is_empty_true (s : string) : is_empty s = true <-> s = "".
Proof. destruct s; simpl; split; congruence. Qed.

Lemma is_empty_false (s : string) : is_empty s = false <-> s <> "".
Proof. destruct s; simpl; split; congruence. Qed.

Lemma len_nonneg (s : string) : 0 <= len s.
Proof. unfold len; lia. Qed.

Lemma len_positive (s : string) : s <> "" -> 1 <= len s.
Proof. destruct s as [|c rest]; [congruence|]; intros _; unfold len; simpl; lia. Qed.

Lemma len_zero (s : string) : len s = 0 <-> s = "".
Proof.
  split; [|intros ->; reflexivity].
  destruct s; [reflexivity|]; unfold len; simpl; lia.
Qed.

(** A rune takes at least one byte, so a string has at most as many runes as
    bytes. *)
Lemma runes_from_length (s : string) :
  forall skip, (List.length (utf8.runes_from skip s) <= String.length s)%nat.
Proof.
  induction s as [|c rest IH]; intros skip; [simpl; lia|].
  destruct skip as [|k].
  - change (utf8.runes_from 0 (String c rest))
      with (let (r, size) := utf8.DecodeRuneInString (String c rest) in
            r :: utf8.runes_from (Nat.pred size) rest).
    destruct (utf8.DecodeRuneInString (String c rest)) as [r size].
    specialize (IH (Nat.pred size)); simpl; lia.
  - specialize (IH k); simpl; lia.
Qed.

Lemma RuneCount_le_len (s : string) : utf8.RuneCountInString s <= len s.
Proof.
  unfold utf8.RuneCountInString, utf8.runes, len.
  pose proof (runes_from_length s 0); lia.
Qed.

(** On ASCII text bytes and runes coincide. *)
Lemma runes_ascii (s : string) :
  all_bytes is_ascii s = true ->
  utf8.runes s = map byte_val (list_ascii_of_string s).
Proof.
  unfold utf8.runes.
  induction s as [|c rest IH]; [reflexivity|].
  cbn [all_bytes]; intros H; apply andb_true_iff in H as [Hc Hrest].
  change (utf8.runes_from 0 (String c rest))
    with (let (r, size) := utf8.DecodeRuneInString (String c rest) in
          r :: utf8.runes_from (Nat.pred size) rest).
  unfold utf8.DecodeRuneInString. unfold is_ascii in Hc. rewrite Hc.
  cbn [Nat.pred list_ascii_of_string map]. f_equal. exact (IH Hrest).
Qed.

Lemma RuneCount_ascii (s : string) :
  all_bytes is_ascii s = true -> utf8.RuneCountInString s = len s.
Proof.
  intros H. unfold utf8.RuneCountInString, len.
  rewrite (runes_ascii s H), length_map. f_equal.
  clear H; induction s; simpl; congruence.
Qed.

Lemma map_upper_no_lower (s : string) :
  any_byte is_lower s = false -> map_bytes upper_byte s = s.
Proof.
  induction s as [|c rest IH]; cbn [map_bytes any_byte]; [reflexivity|].
  intros H; apply orb_false_iff in H as [Hc Hrest].
  rewrite (IH Hrest). unfold upper_byte; rewrite Hc; reflexivity.
Qed.

(** On ASCII text [strings.ToUpper] replaces each lower-case letter by its
    upper-case one and keeps every other byte. *)
Lemma strings_ToUpper_ascii (s : string) :
  all_bytes is_ascii s = true -> strings_ToUpper s = map_bytes upper_byte s.
Proof.
  intros H. unfold strings_ToUpper. rewrite H.
  destruct (any_byte is_lower s) eqn:E; simpl; [reflexivity|].
  symmetry; apply map_upper_no_lower; exact E.
Qed.

Lemma map_bytes_length (f : ascii -> ascii) (s : string) :
  String.length (map_bytes f s) = String.length s.
Proof. induction s; simpl; congruence. Qed.

Example ToUpper_hello : strings_ToUpper "hello" = "HELLO".
Proof. reflexivity. Qed.

Example ToUpper_mixed : strings_ToUpper "Go kit, v0.1!" = "GO KIT, V0.1!".
Proof. reflexivity. Qed.

Example decode_e_acute : utf8.runes e_acute = [0xE9].
Proof. reflexivity. Qed.

Example encode_e_acute : utf8.EncodeRune 0xE9 = e_acute.
Proof. reflexivity. Qed.

(** ** The service *)

Lemma Uppercase_empty (w : World) :
  stringService_Uppercase "" w = (Returned ("", errors_New "Empty string"), w).
Proof. reflexivity. Qed.

Lemma Uppercase_nonempty (s : string) (w : World) :
  s <> "" -> stringService_Uppercase s w = (Returned (strings_ToUpper s, nil_error), w).
Proof.
  intros H. unfold stringService_Uppercase.
  apply is_empty_false in H. rewrite H. reflexivity.
Qed.

Lemma Count_empty (w : World) :
  stringService_Count "" w = (Returned (-1, errors_New "Empty string"), w).
Proof. reflexivity. Qed.

Lemma Count_nonempty (s : string) (w : World) :
  s <> "" -> stringService_Count s w = (Returned (len s, nil_error), w).
Proof.
  intros H. unfold stringService_Count.
  apply is_empty_false in H. rewrite H. reflexivity.
Qed.

(** ** Middlewares: what a call does *)

Ltac run_call :=
  unfold time_Since, with_defer, bind, ret, panic, time_Now, Logger_Log,
    Counter_Add, Histogram_Observe, emit, tick, elapsed, final, result;
  cbn [fst snd clock reads trace].

Lemma loggingMiddleware_Uppercase_run (mw : loggingMiddleware.t) (s : string) (w : World) :
  loggingMiddleware_Uppercase mw s w =
  let line output err w1 :=
    LogEvent (loggingMiddleware.logger mw)
      [ any_string "method"; any_string "uppercase";
        any_string "input"; any_string s;
        any_string "output"; any_string output;
        any_string "err"; any_of_error err;
        any_string "took"; any_Duration (elapsed w w1) ] in
  match Uppercase (loggingMiddleware.next mw) s (tick w) with
  | (Returned (output, err), w1) =>
    (Returned (output, err), emit (line output err w1) (tick w1))
  | (Panicked v, w1) => (Panicked v, emit (line "" nil_error w1) (tick w1))
  end.
Proof.
  unfold loggingMiddleware_Uppercase. run_call.
  destruct (Uppercase (loggingMiddleware.next mw) s _) as [[[output err]|v] w1];
    reflexivity.
Qed.

Lemma loggingMiddleware_Count_run (mw : loggingMiddleware.t) (s : string) (w : World) :
  loggingMiddleware_Count mw s w =
  let line n w1 :=
    LogEvent (loggingMiddleware.logger mw)
      [ any_string "method"; any_string "count";
        any_string "input"; any_string s;
        any_string "n"; any_int n;
        any_string "took"; any_Duration (elapsed w w1) ] in
  match Count (loggingMiddleware.next mw) s (tick w) with
  | (Returned (n, err), w1) => (Returned (n, err), emit (line n w1) (tick w1))
  | (Panicked v, w1) => (Panicked v, emit (line 0 w1) (tick w1))
  end.
Proof.
  unfold loggingMiddleware_Count. run_call.
  destruct (Count (loggingMiddleware.next mw) s _) as [[[n err]|v] w1];
    reflexivity.
Qed.

Lemma instrumentingMiddleware_Uppercase_run
      (mw : instrumentingMiddleware.t) (s : string) (w : World) :
  instrumentingMiddleware_Uppercase mw s w =
  let after err w1 :=
    let lvs := ["method"; "uppercase"; "error"; Sprint_bool (negb (is_nil err))] in
    mkWorld (clock w1) (Datatypes.S (reads w1))
      (trace w1 ++
       [ AddEvent (Counter_With (instrumentingMiddleware.requestCount mw) lvs)
                  (float64_of_int 1);
         ObserveEvent (Histogram_With (instrumentingMiddleware.requestLatency mw) lvs)
                      (time.Seconds (elapsed w w1)) ]) in
  match Uppercase (instrumentingMiddleware.next mw) s (tick w) with
  | (Returned (output, err), w1) => (Returned (output, err), after err w1)
  | (Panicked v, w1) => (Panicked v, after nil_error w1)
  end.
Proof.
  unfold instrumentingMiddleware_Uppercase. run_call.
  destruct (Uppercase (instrumentingMiddleware.next mw) s _) as [[[output err]|v] w1];
    cbn [fst snd clock reads trace]; rewrite <- !app_assoc; reflexivity.
Qed.

Lemma instrumentingMiddleware_Count_run
      (mw : instrumentingMiddleware.t) (s : string) (w : World) :
  instrumentingMiddleware_Count mw s w =
  let lvs := ["method"; "count"; "error"; "false"] in
  let after n w1 :=
    mkWorld (clock w1) (Datatypes.S (reads w1))
      (trace w1 ++
       [ AddEvent (Counter_With (instrumentingMiddleware.requestCount mw) lvs)
                  (float64_of_int 1);
         ObserveEvent (Histogram_With (instrumentingMiddleware.requestLatency mw) lvs)
                      (time.Seconds (elapsed w w1));
         ObserveEvent (instrumentingMiddleware.countResult mw) (float64_of_int n) ]) in
  match Count (instrumentingMiddleware.next mw) s (tick w) with
  | (Returned (n, err), w1) => (Returned (n, err), after n w1)
  | (Panicked v, w1) => (Panicked v, after 0 w1)
  end.
Proof.
  unfold instrumentingMiddleware_Count. run_call.
  destruct (Count (instrumentingMiddleware.next mw) s _) as [[[n err]|v] w1];
    cbn [fst snd clock reads trace]; rewrite <- !app_assoc; reflexivity.
Qed.

(** The result of a decorated call is the result of the call it wraps. *)
Lemma logging_Uppercase_result (mw : loggingMiddleware.t) (s : string) (w : World) :
  result (loggingMiddleware_Uppercase mw s w)
  = result (Uppercase (loggingMiddleware.next mw) s (tick w)).
Proof.
  rewrite loggingMiddleware_Uppercase_run.
  destruct (Uppercase _ s (tick w)) as [[[output err]|v] w1]; reflexivity.
Qed.

Lemma logging_Count_result (mw : loggingMiddleware.t) (s : string) (w : World) :
  result (loggingMiddleware_Count mw s w)
  = result (Count (loggingMiddleware.next mw) s (tick w)).
Proof.
  rewrite loggingMiddleware_Count_run.
  destruct (Count _ s (tick w)) as [[[n err]|v] w1]; reflexivity.
Qed.

Lemma instrumenting_Uppercase_result
      (mw : instrumentingMiddleware.t) (s : string) (w : World) :
  result (instrumentingMiddleware_Uppercase mw s w)
  = result (Uppercase (instrumentingMiddleware.next mw) s (tick w)).
Proof.
  rewrite instrumentingMiddleware_Uppercase_run.
  destruct (Uppercase _ s (tick w)) as [[[output err]|v] w1]; reflexivity.
Qed.

Lemma instrumenting_Count_result
      (mw : instrumentingMiddleware.t) (s : string) (w : World) :
  result (instrumentingMiddleware_Count mw s w)
  = result (Count (instrumentingMiddleware.next mw) s (tick w)).
Proof.
  rewrite instrumentingMiddleware_Count_run.
  destruct (Count _ s (tick w)) as [[[n err]|v] w1]; reflexivity.
Qed.

(** The bare service returns the same in every world and leaves it alone. *)
Lemma stringService_Uppercase_returns (s : string) :
  exists r, forall w, stringService_Uppercase s w = (Returned r, w).
Proof.
  unfold stringService_Uppercase.
  destruct (is_empty s); eexists; intros w; reflexivity.
Qed.

Lemma stringService_Count_returns (s : string) :
  exists r, forall w, stringService_Count s w = (Returned r, w).
Proof.
  unfold stringService_Count.
  destruct (is_empty s); eexists; intros w; reflexivity.
Qed.

(** The wired service returns what the bare one does, after one log line,
    one increment of the counter and one observation of the latency (and,
    for [Count], one of the result). *)
Lemma svc_Uppercase_returns (s : string) (w : World) :
  exists r w1 events,
    stringService_Uppercase s w = (Returned r, w) /\
    Uppercase svc s w = (Returned r, w1) /\
    trace w1 = (trace w ++ events)%list /\ List.length events = 3%nat.
Proof.
  destruct (stringService_Uppercase_returns s) as [[output err] Hr].
  exists (output, err).
  unfold svc. cbn [Uppercase instrumenting].
  rewrite instrumentingMiddleware_Uppercase_run.
  cbn [instrumentingMiddleware.next Uppercase logging].
  rewrite loggingMiddleware_Uppercase_run.
  cbn [loggingMiddleware.next Uppercase stringService].
  rewrite (Hr (tick (tick w))).
  eexists; eexists; split; [apply Hr|]. split; [reflexivity|].
  split; [|shelve].
  cbn [trace emit tick final time_Now snd]. rewrite <- app_assoc. reflexivity.
  Unshelve. reflexivity.
Qed.

Lemma svc_Count_returns (s : string) (w : World) :
  exists r w1 events,
    stringService_Count s w = (Returned r, w) /\
    Count svc s w = (Returned r, w1) /\
    trace w1 = (trace w ++ events)%list /\ List.length events = 4%nat.
Proof.
  destruct (stringService_Count_returns s) as [[n err] Hr].
  exists (n, err).
  unfold svc. cbn [Count instrumenting].
  rewrite instrumentingMiddleware_Count_run.
  cbn [instrumentingMiddleware.next Count logging].
  rewrite loggingMiddleware_Count_run.
  cbn [loggingMiddleware.next Count stringService].
  rewrite (Hr (tick (tick w))).
  eexists; eexists; split; [apply Hr|]. split; [reflexivity|].
  split; [|shelve].
  cbn [trace emit tick final time_Now snd]. rewrite <- app_assoc. reflexivity.
  Unshelve. reflexivity.
Qed.

(** ** The claims about the service *)

(** C1, as amended.  For every non-empty string [s], [Count] returns the
    length of [s] in bytes, [len(s)], with a nil error, and the count
    endpoint (over the bare and over the wired service) answers with that
    value in [V] and an empty [Err].  The length in bytes is the number of
    characters when [s] is ASCII text. *)
Theorem Count_returns_byte_length (s : string) (w : World) :
  s <> "" ->
  stringService_Count s w = (Returned (len s, nil_error), w) /\
  makeCountEndpoint stringService (any_countRequest (countRequest.mk s)) w
    = (Returned (any_countResponse (countResponse.mk (len s) ""), nil_error), w) /\
  (exists w1,
      countEnpoint (any_countRequest (countRequest.mk s)) w
      = (Returned (any_countResponse (countResponse.mk (len s) ""), nil_error), w1)) /\
  (all_bytes is_ascii s = true -> len s = utf8.RuneCountInString s).
Proof.
  intros Hs. pose proof (Count_nonempty s w Hs) as Hc.
  split; [exact Hc|]. split; [|split].
  - unfold makeCountEndpoint, bind. cbn [Count stringService countRequest.S].
    rewrite Hc. reflexivity.
  - destruct (svc_Count_returns s w) as (r & w1 & events & Hbare & Hsvc & _).
    rewrite Hc in Hbare. injection Hbare as <-.
    exists w1. unfold countEnpoint, makeCountEndpoint, bind.
    cbn [countRequest.S]. rewrite Hsvc. reflexivity.
  - intros Ha. symmetry. apply RuneCount_ascii. exact Ha.
Qed.

(** C5.  [Uppercase("")] returns the empty string and a non-nil error whose
    message is "Empty string"; on a non-empty [s], [Uppercase] returns
    [strings.ToUpper(s)] and a nil error. *)
Theorem Uppercase_empty_or_upper (s : string) (w : World) :
  (exists err,
      stringService_Uppercase "" w = (Returned ("", err), w) /\
      err <> nil_error /\ Error err = "Empty string") /\
  (s <> "" ->
   stringService_Uppercase s w = (Returned (strings_ToUpper s, nil_error), w)).
Proof.
  split.
  - exists (errors_New "Empty string"). repeat split. discriminate.
  - apply Uppercase_nonempty.
Qed.

(** C9.  The integer [Count] returns is -1 exactly on the empty input, at
    least 1 on every other input, and never 0. *)
Theorem Count_sentinel (s : string) (w : World) :
  exists n err,
    stringService_Count s w = (Returned (n, err), w) /\
    (n = -1 <-> s = "") /\
    (s <> "" -> 1 <= n) /\
    n <> 0.
Proof.
  destruct s as [|c rest].
  - exists (-1), (errors_New "Empty string"). repeat split; try lia; congruence.
  - assert (Hs : String c rest <> "") by discriminate.
    pose proof (len_positive _ Hs) as Hlen.
    exists (len (String c rest)), nil_error.
    split; [apply Count_nonempty; exact Hs|].
    repeat split; try lia; try congruence.
Qed.

(** C8.  The operations of the bare service are functions of their input:
    the result does not depend on the world the call runs in, the call
    leaves the world as it is, and two calls in a row return the same pair.
    Two calls in a row through the wired service return the same pair too. *)
Theorem service_calls_repeat (s : string) (w w' : World) :
  result (Uppercase stringService s w) = result (Uppercase stringService s w') /\
  result (Count stringService s w) = result (Count stringService s w') /\
  final (Uppercase stringService s w) = w /\
  final (Count stringService s w) = w /\
  (exists r,
      (a <- Uppercase stringService s ;; b <- Uppercase stringService s ;; ret (a, b)) w
      = (Returned (r, r), w)) /\
  (exists r,
      (a <- Count stringService s ;; b <- Count stringService s ;; ret (a, b)) w
      = (Returned (r, r), w)) /\
  (exists r w2,
      (a <- Uppercase svc s ;; b <- Uppercase svc s ;; ret (a, b)) w
      = (Returned (r, r), w2)) /\
  (exists r w2,
      (a <- Count svc s ;; b <- Count svc s ;; ret (a, b)) w = (Returned (r, r), w2)).
Proof.
  destruct (stringService_Uppercase_returns s) as [ru Hu].
  destruct (stringService_Count_returns s) as [rc Hc].
  cbn [Uppercase Count stringService].
  repeat split.
  - rewrite (Hu w), (Hu w'); reflexivity.
  - rewrite (Hc w), (Hc w'); reflexivity.
  - rewrite (Hu w); reflexivity.
  - rewrite (Hc w); reflexivity.
  - exists ru. unfold bind, ret. rewrite (Hu w), (Hu w). reflexivity.
  - exists rc. unfold bind, ret. rewrite (Hc w), (Hc w). reflexivity.
  - destruct (svc_Uppercase_returns s w) as (r1 & w1 & ? & H1 & Hs1 & _).
    destruct (svc_Uppercase_returns s w1) as (r2 & w2 & ? & H2 & Hs2 & _).
    rewrite Hu in H1, H2. injection H1 as <-. injection H2 as <-.
    exists ru, w2. unfold bind, ret. rewrite Hs1, Hs2. reflexivity.
  - destruct (svc_Count_returns s w) as (r1 & w1 & ? & H1 & Hs1 & _).
    destruct (svc_Count_returns s w1) as (r2 & w2 & ? & H2 & Hs2 & _).
    rewrite Hc in H1, H2. injection H1 as <-. injection H2 as <-.
    exists rc, w2. unfold bind, ret. rewrite Hs1, Hs2. reflexivity.
Qed.

(** C4.  A call through the logging middleware, through the instrumenting
    middleware, or through both returns what the wrapped implementation
    returns when the wrapper calls it, whatever that implementation is; over
    the bare service this is what the bare service returns on [s]. *)
Theorem middleware_keeps_result
        (impl : IStringService) (l : Logger) (c : Counter) (h1 h2 : Histogram)
        (s : string) (w : World) :
  let logged := logging (loggingMiddleware.mk l impl) in
  let measured := instrumenting (instrumentingMiddleware.mk c h1 h2 impl) in
  let both := instrumenting (instrumentingMiddleware.mk c h1 h2 logged) in
  result (Uppercase logged s w) = result (Uppercase impl s (tick w)) /\
  result (Count logged s w) = result (Count impl s (tick w)) /\
  result (Uppercase measured s w) = result (Uppercase impl s (tick w)) /\
  result (Count measured s w) = result (Count impl s (tick w)) /\
  result (Uppercase both s w) = result (Uppercase impl s (tick (tick w))) /\
  result (Count both s w) = result (Count impl s (tick (tick w))) /\
  result (Uppercase svc s w) = result (Uppercase stringService s w) /\
  result (Count svc s w) = result (Count stringService s w).
Proof.
  cbn zeta. cbn [Uppercase Count logging instrumenting].
  repeat split.
  - apply logging_Uppercase_result.
  - apply logging_Count_result.
  - apply instrumenting_Uppercase_result.
  - apply instrumenting_Count_result.
  - rewrite instrumenting_Uppercase_result. apply logging_Uppercase_result.
  - rewrite instrumenting_Count_result. apply logging_Count_result.
  - destruct (svc_Uppercase_returns s w) as (r & w1 & ? & H1 & Hs1 & _).
    rewrite Hs1. cbn [Uppercase stringService]. rewrite H1. reflexivity.
  - destruct (svc_Count_returns s w) as (r & w1 & ? & H1 & Hs1 & _).
    rewrite Hs1. cbn [Count stringService]. rewrite H1. reflexivity.
Qed.

(** ** The claims about the endpoints *)

Lemma makeUppercaseEndpoint_returned
      (impl : IStringService) (s : string) (w w1 : World) (v : string) (err : error) :
  Uppercase impl s w = (Returned (v, err), w1) ->
  makeUppercaseEndpoint impl (any_uppercaseRequest (uppercaseRequest.mk s)) w
  = (Returned (any_uppercaseResponse
                 (if is_nil err then uppercaseResponse.mk v ""
                  else uppercaseResponse.mk "" (Error err)), nil_error), w1).
Proof.
  intros H. unfold makeUppercaseEndpoint, bind. cbn [uppercaseRequest.S].
  rewrite H. destruct err; reflexivity.
Qed.

Lemma makeCountEndpoint_returned
      (impl : IStringService) (s : string) (w w1 : World) (v : Z) (err : error) :
  Count impl s w = (Returned (v, err), w1) ->
  makeCountEndpoint impl (any_countRequest (countRequest.mk s)) w
  = (Returned (any_countResponse
                 (if is_nil err then countResponse.mk v ""
                  else countResponse.mk (-1) (Error err)), nil_error), w1).
Proof.
  intros H. unfold makeCountEndpoint, bind. cbn [countRequest.S].
  rewrite H. destruct err; reflexivity.
Qed.

(** A panic of the service goes through the endpoint. *)
Lemma makeUppercaseEndpoint_panicked
      (impl : IStringService) (s : string) (w w1 : World) (v : string) :
  Uppercase impl s w = (Panicked v, w1) ->
  makeUppercaseEndpoint impl (any_uppercaseRequest (uppercaseRequest.mk s)) w
  = (Panicked v, w1).
Proof.
  intros H. unfold makeUppercaseEndpoint, bind. cbn [uppercaseRequest.S].
  rewrite H. reflexivity.
Qed.

Lemma makeCountEndpoint_panicked
      (impl : IStringService) (s : string) (w w1 : World) (v : string) :
  Count impl s w = (Panicked v, w1) ->
  makeCountEndpoint impl (any_countRequest (countRequest.mk s)) w = (Panicked v, w1).
Proof.
  intros H. unfold makeCountEndpoint, bind. cbn [countRequest.S].
  rewrite H. reflexivity.
Qed.

Lemma uppercase_in_band_intro
      (impl : IStringService) (s : string) (w w1 : World) (v : string) (err : error) :
  Uppercase impl s w = (Returned (v, err), w1) ->
  (err <> nil_error -> Error err <> "") ->
  uppercase_in_band impl s w.
Proof.
  intros H Htext.
  exists v, err,
    (if is_nil err then uppercaseResponse.mk v ""
     else uppercaseResponse.mk "" (Error err)), w1.
  split; [exact H|]. split; [apply makeUppercaseEndpoint_returned; exact H|].
  destruct err as [|text]; cbn [is_nil uppercaseResponse.Err Error] in *.
  - repeat split; congruence.
  - repeat split; try congruence. intros _. apply Htext. discriminate.
Qed.

Lemma count_in_band_intro
      (impl : IStringService) (s : string) (w w1 : World) (v : Z) (err : error) :
  Count impl s w = (Returned (v, err), w1) ->
  (err <> nil_error -> Error err <> "") ->
  count_in_band impl s w.
Proof.
  intros H Htext.
  exists v, err,
    (if is_nil err then countResponse.mk v ""
     else countResponse.mk (-1) (Error err)), w1.
  split; [exact H|]. split; [apply makeCountEndpoint_returned; exact H|].
  destruct err as [|text]; cbn [is_nil countResponse.Err Error] in *.
  - repeat split; congruence.
  - repeat split; try congruence. intros _. apply Htext. discriminate.
Qed.

(** The only error of the bare service has a message. *)
Lemma stringService_Uppercase_error_text (s : string) (w w1 : World) v err :
  stringService_Uppercase s w = (Returned (v, err), w1) ->
  err <> nil_error -> Error err <> "".
Proof.
  unfold stringService_Uppercase, ret.
  destruct (is_empty s); intros [= <- <- <-]; cbn; congruence.
Qed.

Lemma stringService_Count_error_text (s : string) (w w1 : World) v err :
  stringService_Count s w = (Returned (v, err), w1) ->
  err <> nil_error -> Error err <> "".
Proof.
  unfold stringService_Count, ret.
  destruct (is_empty s); intros [= <- <- <-]; cbn; congruence.
Qed.

(** C6.  On every request, each endpoint of the program (over the bare
    service and over the wired one) returns a response object and a nil
    error: a failed call gives the message of the error in [Err], with the
    empty string or -1 in [V]; a successful call gives its value in [V]
    with [Err] empty; so [Err] is non-empty exactly when the call failed. *)
Theorem endpoints_answer_in_band (s : string) (w : World) :
  uppercase_in_band stringService s w /\
  count_in_band stringService s w /\
  uppercase_in_band svc s w /\
  count_in_band svc s w.
Proof.
  destruct (svc_Uppercase_returns s w) as ([vu eu] & wu & ? & Hbu & Hsu & _).
  destruct (svc_Count_returns s w) as ([vc ec] & wc & ? & Hbc & Hsc & _).
  repeat split.
  - eapply uppercase_in_band_intro; [exact Hbu|].
    eapply stringService_Uppercase_error_text; exact Hbu.
  - eapply count_in_band_intro; [exact Hbc|].
    eapply stringService_Count_error_text; exact Hbc.
  - eapply uppercase_in_band_intro; [exact Hsu|].
    eapply stringService_Uppercase_error_text; exact Hbu.
  - eapply count_in_band_intro; [exact Hsc|].
    eapply stringService_Count_error_text; exact Hbc.
Qed.

Example endpoint_uppercase_hello :
  makeUppercaseEndpoint stringService
    (any_uppercaseRequest (uppercaseRequest.mk "hello")) world0
  = (Returned (any_uppercaseResponse (uppercaseResponse.mk "HELLO" ""), nil_error),
     world0).
Proof. reflexivity. Qed.

Example endpoint_count_hello :
  makeCountEndpoint stringService (any_countRequest (countRequest.mk "hello")) world0
  = (Returned (any_countResponse (countResponse.mk 5 ""), nil_error), world0).
Proof. reflexivity. Qed.

Example endpoint_count_empty :
  makeCountEndpoint stringService (any_countRequest (countRequest.mk "")) world0
  = (Returned (any_countResponse (countResponse.mk (-1) "Empty string"), nil_error),
     world0).
Proof. reflexivity. Qed.

(** A request of another type makes the type assertion panic. *)
Example endpoint_wrong_request :
  result (makeCountEndpoint stringService
            (any_uppercaseRequest (uppercaseRequest.mk "hello")) world0)
  = Panicked "interface conversion".
Proof. reflexivity. Qed.

(** ** The claims about the middlewares *)

(** X3.  On every way out of [Uppercase], one line goes to the logger after what
    the wrapped call emitted, with the operation, the input, the output,
    the error and the duration measured: the output and the error are those
    the wrapped call returned, and the empty string and nil when it
    panicked. *)
Lemma logging_Uppercase_one_line (mw : loggingMiddleware.t) (s : string) (w : World) :
  exists line,
    trace (final (loggingMiddleware_Uppercase mw s w))
    = (trace (final (Uppercase (loggingMiddleware.next mw) s (tick w)))
       ++ [LogEvent (loggingMiddleware.logger mw) line])%list /\
    lookup_key "method" line = Some (any_string "uppercase") /\
    lookup_key "input" line = Some (any_string s) /\
    lookup_key "took" line
    = Some (any_Duration
              (elapsed w (final (Uppercase (loggingMiddleware.next mw) s (tick w))))) /\
    List.length line = 10%nat /\
    match result (Uppercase (loggingMiddleware.next mw) s (tick w)) with
    | Returned (output, err) =>
      lookup_key "output" line = Some (any_string output) /\
      lookup_key "err" line = Some (any_of_error err)
    | Panicked _ =>
      lookup_key "output" line = Some (any_string "") /\
      lookup_key "err" line = Some any_nil
    end.
Proof.
  rewrite loggingMiddleware_Uppercase_run. cbn zeta.
  destruct (Uppercase _ s (tick w)) as [[[output err]|v] w1];
    eexists; (split; [reflexivity|]);
    cbn [lookup_key String.eqb Ascii.eqb Bool.eqb final result fst snd];
    repeat split.
Qed.

(** X4.  On every way out of [Count], one line goes to the logger too, with the
    operation, the input, the count and the duration, but no error. *)
Lemma logging_Count_one_line (mw : loggingMiddleware.t) (s : string) (w : World) :
  exists line,
    trace (final (loggingMiddleware_Count mw s w))
    = (trace (final (Count (loggingMiddleware.next mw) s (tick w)))
       ++ [LogEvent (loggingMiddleware.logger mw) line])%list /\
    lookup_key "method" line = Some (any_string "count") /\
    lookup_key "input" line = Some (any_string s) /\
    (exists n, lookup_key "n" line = Some (any_int n)) /\
    (exists d, lookup_key "took" line = Some (any_Duration d)) /\
    lookup_key "err" line = None.
Proof.
  rewrite loggingMiddleware_Count_run. cbn zeta.
  destruct (Count _ s (tick w)) as [[[n err]|v] w1];
    eexists; (split; [reflexivity|]); cbn [lookup_key String.eqb Ascii.eqb Bool.eqb];
    repeat split; eexists; reflexivity.
Qed.

(** C2, at the failing input.  [Count("")] through the logging middleware
    over the bare service fails with "Empty string", and the one line it
    logs has the keys [method], [input], [n] and [took] and no key [err];
    [Uppercase("")] logs the error under [err]. *)
Theorem logging_Count_line_lacks_error (w : World) :
  let mw := loggingMiddleware.mk logger stringService in
  exists line took,
    loggingMiddleware_Count mw "" w
    = (Returned (-1, errors_New "Empty string"),
       mkWorld (clock w) (2 + reads w) (trace w ++ [LogEvent logger line])) /\
    line = [ any_string "method"; any_string "count";
             any_string "input"; any_string "";
             any_string "n"; any_int (-1);
             any_string "took"; any_Duration took ] /\
    lookup_key "err" line = None /\
    exists line',
      trace (final (loggingMiddleware_Uppercase mw "" w))
      = (trace w ++ [LogEvent logger line'])%list /\
      lookup_key "err" line' = Some (any_error "Empty string").
Proof.
  cbn zeta. rewrite loggingMiddleware_Count_run, loggingMiddleware_Uppercase_run.
  cbn [loggingMiddleware.next loggingMiddleware.logger Count Uppercase stringService].
  rewrite Count_empty, Uppercase_empty.
  eexists; eexists. split; [reflexivity|]. split; [reflexivity|].
  split; [reflexivity|].
  eexists. split; reflexivity.
Qed.

(** X5.  On every way out of [Uppercase] through the instrumenting middleware
    the counter is incremented and the latency observed, both under the
    same label values, the last of which tells whether an error came back. *)
Lemma instrumenting_Uppercase_labels
      (mw : instrumentingMiddleware.t) (s : string) (w : World) :
  exists lvs took,
    trace (final (instrumentingMiddleware_Uppercase mw s w))
    = (trace (final (Uppercase (instrumentingMiddleware.next mw) s (tick w)))
       ++ [ AddEvent (Counter_With (instrumentingMiddleware.requestCount mw) lvs)
                     (float64_of_int 1);
            ObserveEvent (Histogram_With (instrumentingMiddleware.requestLatency mw) lvs)
                         (time.Seconds took) ])%list /\
    match result (Uppercase (instrumentingMiddleware.next mw) s (tick w)) with
    | Returned (_, err) =>
      lvs = ["method"; "uppercase"; "error"; if is_nil err then "false" else "true"]
    | Panicked _ => lvs = ["method"; "uppercase"; "error"; "false"]
    end.
Proof.
  rewrite instrumentingMiddleware_Uppercase_run. cbn zeta.
  destruct (Uppercase _ s (tick w)) as [[[output err]|v] w1];
    eexists; eexists; (split; [reflexivity|]); [destruct err|]; reflexivity.
Qed.

(** What [Count("")] and [Uppercase("")] through the wired service leave in
    the trace. *)
Lemma svc_Count_empty (w : World) :
  exists line took w1,
    Count svc "" w = (Returned (-1, errors_New "Empty string"), w1) /\
    trace w1
    = (trace w
       ++ [ LogEvent logger line;
            AddEvent (Counter_With requestCount ["method"; "count"; "error"; "false"])
                     (float64_of_int 1);
            ObserveEvent
              (Histogram_With requestLatency ["method"; "count"; "error"; "false"])
              (time.Seconds took);
            ObserveEvent countResult (float64_of_int (-1)) ])%list.
Proof.
  unfold svc. cbn [Count instrumenting].
  rewrite instrumentingMiddleware_Count_run.
  cbn [instrumentingMiddleware.next Count logging].
  rewrite loggingMiddleware_Count_run.
  cbn [loggingMiddleware.next Count stringService].
  rewrite Count_empty.
  cbn zeta.
  cbn [instrumentingMiddleware.requestCount instrumentingMiddleware.requestLatency
       instrumentingMiddleware.countResult loggingMiddleware.logger
       trace emit tick final time_Now snd].
  eexists; eexists; eexists. split; [reflexivity|].
  rewrite <- app_assoc; reflexivity.
Qed.

Lemma svc_Uppercase_empty (w : World) :
  exists line took w1,
    Uppercase svc "" w = (Returned ("", errors_New "Empty string"), w1) /\
    trace w1
    = (trace w
       ++ [ LogEvent logger line;
            AddEvent (Counter_With requestCount ["method"; "uppercase"; "error"; "true"])
                     (float64_of_int 1);
            ObserveEvent
              (Histogram_With requestLatency ["method"; "uppercase"; "error"; "true"])
              (time.Seconds took) ])%list.
Proof.
  unfold svc. cbn [Uppercase instrumenting].
  rewrite instrumentingMiddleware_Uppercase_run.
  cbn [instrumentingMiddleware.next Uppercase logging].
  rewrite loggingMiddleware_Uppercase_run.
  cbn [loggingMiddleware.next Uppercase stringService].
  rewrite Uppercase_empty.
  cbn zeta.
  cbn [instrumentingMiddleware.requestCount instrumentingMiddleware.requestLatency
       loggingMiddleware.logger
       trace emit tick final time_Now snd is_nil negb Sprint_bool].
  eexists; eexists; eexists. split; [reflexivity|].
  rewrite <- app_assoc; reflexivity.
Qed.

(** C3, at the failing input.  [Count("")] through the wired service fails
    with "Empty string", yet the counter and the latency are labelled
    [error = "false"]; [Uppercase("")] labels them [error = "true"]. *)
Theorem instrumenting_Count_labels_failure_false (w : World) :
  (exists line took w1,
      Count svc "" w = (Returned (-1, errors_New "Empty string"), w1) /\
      trace w1
      = (trace w
         ++ [ LogEvent logger line;
              AddEvent (Counter_With requestCount ["method"; "count"; "error"; "false"])
                       (float64_of_int 1);
              ObserveEvent
                (Histogram_With requestLatency ["method"; "count"; "error"; "false"])
                (time.Seconds took);
              ObserveEvent countResult (float64_of_int (-1)) ])%list) /\
  (exists line took w1,
      Uppercase svc "" w = (Returned ("", errors_New "Empty string"), w1) /\
      trace w1
      = (trace w
         ++ [ LogEvent logger line;
              AddEvent (Counter_With requestCount ["method"; "uppercase"; "error"; "true"])
                       (float64_of_int 1);
              ObserveEvent
                (Histogram_With requestLatency ["method"; "uppercase"; "error"; "true"])
                (time.Seconds took) ])%list).
Proof.
  split; [apply svc_Count_empty | apply svc_Uppercase_empty].
Qed.

(** C7.  When the wrapped [Count] returns [(n, err)], the instrumenting
    middleware returns the same pair and, after incrementing the counter
    and observing the latency, observes [float64(n)] on the result
    histogram, once.  On [Count("")] through the wired service the value
    observed is that of -1. *)
Theorem countResult_observes_returned
        (mw : instrumentingMiddleware.t) (s : string) (w w1 : World)
        (n : Z) (err : error) :
  Count (instrumentingMiddleware.next mw) s (tick w) = (Returned (n, err), w1) ->
  (exists w2,
      instrumentingMiddleware_Count mw s w = (Returned (n, err), w2) /\
      trace w2
      = (trace w1
         ++ [ AddEvent (Counter_With (instrumentingMiddleware.requestCount mw)
                                     ["method"; "count"; "error"; "false"])
                       (float64_of_int 1);
              ObserveEvent (Histogram_With (instrumentingMiddleware.requestLatency mw)
                                           ["method"; "count"; "error"; "false"])
                           (time.Seconds (elapsed w w1));
              ObserveEvent (instrumentingMiddleware.countResult mw)
                           (float64_of_int n) ])%list) /\
  (exists before w3,
      Count svc "" w = (Returned (-1, errors_New "Empty string"), w3) /\
      trace w3
      = (trace w ++ before ++ [ObserveEvent countResult (float64_of_int (-1))])%list /\
      List.length before = 3%nat /\
      float64_of_int (-1) = S754_finite true 4503599627370496 (-52)).
Proof.
  intros H. split.
  - rewrite instrumentingMiddleware_Count_run. cbn zeta. rewrite H.
    eexists. split; reflexivity.
  - destruct (svc_Count_empty w) as (line & took & w3 & Hc & Ht).
    exists [ LogEvent logger line;
             AddEvent (Counter_With requestCount ["method"; "count"; "error"; "false"])
                      (float64_of_int 1);
             ObserveEvent
               (Histogram_With requestLatency ["method"; "count"; "error"; "false"])
               (time.Seconds took) ], w3.
    split; [exact Hc|]. split; [exact Ht|]. split; reflexivity.
Qed.

(** ** The claim about the decoders *)

Lemma store_members_skips (ms : list (string * json.value)) :
  forallb (fun kv => negb (json.selects_s (fst kv))) ms = true ->
  forall field saved, json.store_members ms field saved = (field, saved).
Proof.
  induction ms as [|[k v] ms IH]; cbn [forallb json.store_members fst]; intros H.
  - reflexivity.
  - apply andb_true_iff in H as [Hk Hms]. apply negb_true_iff in Hk.
    intros field saved. rewrite Hk. apply IH. exact Hms.
Qed.

Lemma Decode_omits_s (body : string) :
  omits_s body = true -> json.Decode body "" = ("", nil_error).
Proof.
  unfold omits_s, json.Decode.
  destruct (json.scan body) as [v| | |]; try discriminate.
  destruct v as [| | | | |ms]; try discriminate.
  intros H. cbn [json.unmarshal]. apply store_members_skips. exact H.
Qed.

(** C10, as amended.  A body whose first JSON value is an object (nested
    within the scanner's limit) none of whose members selects the field [S]
    (no member named s, S or U+017F: the decoder matches names also under
    case folding) decodes, with a nil error, to a request whose [S] is the
    empty string; the handlers then answer in band with the error
    "Empty string" and do not report a transport error. *)
Theorem absent_s_decodes_to_empty (body : string) (w : World) :
  omits_s body = true ->
  decodeUppercaseRequest (http.mkRequest body)
    = (any_uppercaseRequest (uppercaseRequest.mk ""), nil_error) /\
  decodeCountRequest (http.mkRequest body)
    = (any_countRequest (countRequest.mk ""), nil_error) /\
  (exists w1,
      uppercaseHandler (http.mkRequest body) w
      = (Returned (Encoded (any_uppercaseResponse
                              (uppercaseResponse.mk "" "Empty string"))), w1)) /\
  (exists w1,
      countHandler (http.mkRequest body) w
      = (Returned (Encoded (any_countResponse
                              (countResponse.mk (-1) "Empty string"))), w1)) /\
  bare_uppercaseHandler (http.mkRequest body) w
    = (Returned (Encoded (any_uppercaseResponse
                            (uppercaseResponse.mk "" "Empty string"))), w) /\
  bare_countHandler (http.mkRequest body) w
    = (Returned (Encoded (any_countResponse
                            (countResponse.mk (-1) "Empty string"))), w).
Proof.
  intros H. pose proof (Decode_omits_s body H) as Hd.
  assert (Hu : decodeUppercaseRequest (http.mkRequest body)
               = (any_uppercaseRequest (uppercaseRequest.mk ""), nil_error)).
  { unfold decodeUppercaseRequest. cbn [http.Body uppercaseRequest.S].
    rewrite Hd. reflexivity. }
  assert (Hc : decodeCountRequest (http.mkRequest body)
               = (any_countRequest (countRequest.mk ""), nil_error)).
  { unfold decodeCountRequest. cbn [http.Body countRequest.S].
    rewrite Hd. reflexivity. }
  split; [exact Hu|]. split; [exact Hc|].
  unfold uppercaseHandler, countHandler, bare_uppercaseHandler, bare_countHandler,
    ServeHTTP.
  rewrite Hu, Hc. cbn [is_nil negb].
  destruct (svc_Uppercase_empty w) as (? & ? & wu & Hsu & _).
  destruct (svc_Count_empty w) as (? & ? & wc & Hsc & _).
  repeat split.
  - exists wu. unfold bind, uppercaseEndpoint.
    rewrite (makeUppercaseEndpoint_returned _ _ _ _ _ _ Hsu). reflexivity.
  - exists wc. unfold bind, countEnpoint.
    rewrite (makeCountEndpoint_returned _ _ _ _ _ _ Hsc). reflexivity.
Qed.

Example decode_empty_object :
  decodeUppercaseRequest (http.mkRequest "{}")
  = (any_uppercaseRequest (uppercaseRequest.mk ""), nil_error).
Proof. reflexivity. Qed.

Example decode_truncated :
  decodeCountRequest (http.mkRequest "{") = (any_nil, json.io_ErrUnexpectedEOF).
Proof. reflexivity. Qed.

Example decode_not_json :
  decodeCountRequest (http.mkRequest "hello") = (any_nil, json.syntax_error).
Proof. reflexivity. Qed.

(** A malformed body ends in a transport error and the service is not
    called: nothing is logged or measured. *)
Example malformed_body_is_transport_error :
  countHandler (http.mkRequest "{") world0
  = (Returned (TransportError json.io_ErrUnexpectedEOF), world0).
Proof. reflexivity. Qed.

(** * Further properties *)

(** ** Endpoints over any implementation *)

(** X1.  Whatever the implementation and the request, an endpoint that
    returns gives a nil error and a response of its own type, built from
    what the service returned: on a failure the message of the error with
    the empty string (for [Count]: -1, whatever number came with the error)
    as [V], on a success the value.  It panics only on a request of another
    type or when the service panics. *)
Theorem endpoints_return_nil_error (impl : IStringService) (request : any) (w : World) :
  match makeUppercaseEndpoint impl request w with
  | (Returned (response, err), w1) =>
    err = nil_error /\
    exists req v e,
      request = any_uppercaseRequest req /\
      Uppercase impl (uppercaseRequest.S req) w = (Returned (v, e), w1) /\
      response = any_uppercaseResponse
                   (if is_nil e then uppercaseResponse.mk v ""
                    else uppercaseResponse.mk "" (Error e))
  | (Panicked v, w1) =>
    (is_uppercaseRequest request = false /\ w1 = w) \/
    exists req,
      request = any_uppercaseRequest req /\
      Uppercase impl (uppercaseRequest.S req) w = (Panicked v, w1)
  end /\
  match makeCountEndpoint impl request w with
  | (Returned (response, err), w1) =>
    err = nil_error /\
    exists req n e,
      request = any_countRequest req /\
      Count impl (countRequest.S req) w = (Returned (n, e), w1) /\
      response = any_countResponse
                   (if is_nil e then countResponse.mk n ""
                    else countResponse.mk (-1) (Error e))
  | (Panicked v, w1) =>
    (is_countRequest request = false /\ w1 = w) \/
    exists req,
      request = any_countRequest req /\
      Count impl (countRequest.S req) w = (Panicked v, w1)
  end.
Proof.
  split.
  - destruct request as [| | | | |req| | |];
      try (cbn; left; split; reflexivity).
    unfold makeUppercaseEndpoint, bind, ret.
    destruct (Uppercase impl (uppercaseRequest.S req) w) as [[[v e]|v] w1] eqn:E.
    + destruct e; cbn [is_nil]; (split; [reflexivity|]);
        eexists req, v, _; (split; [reflexivity|]); (split; [exact E|reflexivity]).
    + right. exists req. split; [reflexivity|exact E].
  - destruct request as [| | | | | | |req|];
      try (cbn; left; split; reflexivity).
    unfold makeCountEndpoint, bind, ret.
    destruct (Count impl (countRequest.S req) w) as [[[n e]|v] w1] eqn:E.
    + destruct e; cbn [is_nil]; (split; [reflexivity|]);
        eexists req, n, _; (split; [reflexivity|]); (split; [exact E|reflexivity]).
    + right. exists req. split; [reflexivity|exact E].
Qed.

(** X2.  On a request that is not of its type an endpoint panics at the
    type assertion: the service is not called and nothing is emitted.  This
    holds for each endpoint on its own, so also for the uppercase endpoint
    on a count request and for the count endpoint on an uppercase request. *)
Theorem endpoints_reject_other_requests
        (impl : IStringService) (request : any) (w : World) :
  (is_uppercaseRequest request = false ->
   exists v, makeUppercaseEndpoint impl request w = (Panicked v, w)) /\
  (is_countRequest request = false ->
   exists v, makeCountEndpoint impl request w = (Panicked v, w)).
Proof.
  split; intros H; destruct request; try discriminate; eexists; reflexivity.
Qed.

(** ** Middlewares over any implementation *)

(** X6.  On every way out of [Count] through the instrumenting middleware,
    after what the wrapped call emitted come one increment of the counter,
    one observation of the latency, both under the constant label values
    [method = count, error = false], and one observation on the result
    histogram: of the number returned, or of 0 when the wrapped call
    panicked. *)
Theorem instrumenting_Count_events
        (mw : instrumentingMiddleware.t) (s : string) (w : World) :
  exists n took,
    trace (final (instrumentingMiddleware_Count mw s w))
    = (trace (final (Count (instrumentingMiddleware.next mw) s (tick w)))
       ++ [ AddEvent (Counter_With (instrumentingMiddleware.requestCount mw)
                                   ["method"; "count"; "error"; "false"])
                     (float64_of_int 1);
            ObserveEvent (Histogram_With (instrumentingMiddleware.requestLatency mw)
                                         ["method"; "count"; "error"; "false"])
                         (time.Seconds took);
            ObserveEvent (instrumentingMiddleware.countResult mw)
                         (float64_of_int n) ])%list /\
    match result (Count (instrumentingMiddleware.next mw) s (tick w)) with
    | Returned (n', _) => n = n'
    | Panicked _ => n = 0
    end.
Proof.
  rewrite instrumentingMiddleware_Count_run. cbn zeta.
  destruct (Count _ s (tick w)) as [[[n err]|v] w1];
    eexists; eexists; split; reflexivity.
Qed.

Lemma tick_clock (w : World) : clock (tick w) = clock w.
Proof. reflexivity. Qed.

Lemma tick_reads (w : World) : reads (tick w) = Datatypes.S (reads w).
Proof. reflexivity. Qed.

Lemma tick_trace (w : World) : trace (tick w) = trace w.
Proof. reflexivity. Qed.

Lemma appends_logging_Uppercase (mw : loggingMiddleware.t) (s : string) :
  appends (Uppercase (loggingMiddleware.next mw) s) ->
  appends (loggingMiddleware_Uppercase mw s).
Proof.
  intros H w. destruct (H (tick w)) as (Hc & Hr & evs & Ht).
  rewrite loggingMiddleware_Uppercase_run. cbn zeta.
  rewrite tick_clock in Hc. rewrite tick_reads in Hr. rewrite tick_trace in Ht.
  destruct (Uppercase _ s (tick w)) as [[[output err]|v] w1];
    cbn [final snd fst emit tick time_Now clock reads trace] in *;
    (split; [exact Hc|]); (split; [lia|]);
    eexists; rewrite Ht, <- app_assoc; reflexivity.
Qed.

Lemma appends_logging_Count (mw : loggingMiddleware.t) (s : string) :
  appends (Count (loggingMiddleware.next mw) s) ->
  appends (loggingMiddleware_Count mw s).
Proof.
  intros H w. destruct (H (tick w)) as (Hc & Hr & evs & Ht).
  rewrite loggingMiddleware_Count_run. cbn zeta.
  rewrite tick_clock in Hc. rewrite tick_reads in Hr. rewrite tick_trace in Ht.
  destruct (Count _ s (tick w)) as [[[n err]|v] w1];
    cbn [final snd fst emit tick time_Now clock reads trace] in *;
    (split; [exact Hc|]); (split; [lia|]);
    eexists; rewrite Ht, <- app_assoc; reflexivity.
Qed.

Lemma appends_instrumenting_Uppercase (mw : instrumentingMiddleware.t) (s : string) :
  appends (Uppercase (instrumentingMiddleware.next mw) s) ->
  appends (instrumentingMiddleware_Uppercase mw s).
Proof.
  intros H w. destruct (H (tick w)) as (Hc & Hr & evs & Ht).
  rewrite instrumentingMiddleware_Uppercase_run. cbn zeta.
  rewrite tick_clock in Hc. rewrite tick_reads in Hr. rewrite tick_trace in Ht.
  destruct (Uppercase _ s (tick w)) as [[[output err]|v] w1];
    cbn [final snd fst clock reads trace] in *;
    (split; [exact Hc|]); (split; [lia|]);
    eexists; rewrite Ht, <- app_assoc; reflexivity.
Qed.

Lemma appends_instrumenting_Count (mw : instrumentingMiddleware.t) (s : string) :
  appends (Count (instrumentingMiddleware.next mw) s) ->
  appends (instrumentingMiddleware_Count mw s).
Proof.
  intros H w. destruct (H (tick w)) as (Hc & Hr & evs & Ht).
  rewrite instrumentingMiddleware_Count_run. cbn zeta.
  rewrite tick_clock in Hc. rewrite tick_reads in Hr. rewrite tick_trace in Ht.
  destruct (Count _ s (tick w)) as [[[n err]|v] w1];
    cbn [final snd fst clock reads trace] in *;
    (split; [exact Hc|]); (split; [lia|]);
    eexists; rewrite Ht, <- app_assoc; reflexivity.
Qed.

Lemma stringService_well_behaved : well_behaved stringService.
Proof.
  intros s. cbn [Uppercase Count stringService].
  destruct (stringService_Uppercase_returns s) as [ru Hu].
  destruct (stringService_Count_returns s) as [rc Hc].
  split; intros w; [rewrite Hu | rewrite Hc]; cbn [final snd];
    (split; [reflexivity|]); (split; [lia|]);
    exists []; rewrite app_nil_r; reflexivity.
Qed.

Lemma panicking_service_well_behaved : well_behaved panicking_service.
Proof.
  intros s; split; intros w; cbn;
    (split; [reflexivity|]); (split; [lia|]);
    exists []; rewrite app_nil_r; reflexivity.
Qed.

(** X7.  The middlewares keep what is behind them: over an implementation
    whose calls keep the clock, only take further readings and only add
    events after those already emitted, a call through the logging or the
    instrumenting middleware does the same, whether it returns or panics. *)
Theorem middlewares_only_append
        (impl : IStringService) (l : Logger) (c : Counter) (h1 h2 : Histogram) :
  well_behaved impl ->
  well_behaved (logging (loggingMiddleware.mk l impl)) /\
  well_behaved (instrumenting (instrumentingMiddleware.mk c h1 h2 impl)) /\
  well_behaved
    (instrumenting
       (instrumentingMiddleware.mk c h1 h2 (logging (loggingMiddleware.mk l impl)))).
Proof.
  intros H.
  assert (Hl : well_behaved (logging (loggingMiddleware.mk l impl))).
  { intros s. destruct (H s) as [Hu Hc]. cbn [Uppercase Count logging]. split.
    - apply appends_logging_Uppercase. exact Hu.
    - apply appends_logging_Count. exact Hc. }
  assert (Hi : forall x, well_behaved x ->
                         well_behaved (instrumenting (instrumentingMiddleware.mk c h1 h2 x))).
  { intros x Hx s. destruct (Hx s) as [Hu Hc]. cbn [Uppercase Count instrumenting]. split.
    - apply appends_instrumenting_Uppercase. exact Hu.
    - apply appends_instrumenting_Count. exact Hc. }
  split; [exact Hl|]. split; [apply Hi; exact H | apply Hi; exact Hl].
Qed.

(** ** The wired service on every input *)

Lemma Sub_nonneg_le (a b c d : Z) :
  c <= b -> b <= a -> d <= c -> 0 <= time.Sub a d /\ time.Sub b c <= time.Sub a d
  /\ 0 <= time.Sub b c.
Proof.
  unfold time.Sub, time.minDuration, time.maxDuration.
  change (2 ^ 63) with 9223372036854775808. lia.
Qed.

(** X8.  In a world whose clock never runs backwards, [Uppercase] through
    the wired service returns, on every input, what the bare service
    returns, reads the clock four times and emits, in this order, one log
    line (operation, input, output, error, duration), one increment of the
    request counter and one observation of the latency, the last two
    labelled with the operation and with whether an error came back.  The
    duration behind the observed latency is at least the duration logged. *)
Theorem svc_Uppercase_events (s : string) (w : World) :
  monotone_clock w ->
  exists output err logged observed w1,
    stringService_Uppercase s w = (Returned (output, err), w) /\
    Uppercase svc s w = (Returned (output, err), w1) /\
    trace w1
    = (trace w
       ++ [ LogEvent logger
              [ any_string "method"; any_string "uppercase";
                any_string "input"; any_string s;
                any_string "output"; any_string output;
                any_string "err"; any_of_error err;
                any_string "took"; any_Duration logged ];
            AddEvent
              (Counter_With requestCount
                 ["method"; "uppercase"; "error"; Sprint_bool (negb (is_nil err))])
              (float64_of_int 1);
            ObserveEvent
              (Histogram_With requestLatency
                 ["method"; "uppercase"; "error"; Sprint_bool (negb (is_nil err))])
              (time.Seconds observed) ])%list /\
    reads w1 = (4 + reads w)%nat /\
    clock w1 = clock w /\
    0 <= logged <= observed.
Proof.
  intros Hm.
  destruct (stringService_Uppercase_returns s) as [[output err] Hr].
  exists output, err.
  unfold svc. cbn [Uppercase instrumenting].
  rewrite instrumentingMiddleware_Uppercase_run.
  cbn [instrumentingMiddleware.next Uppercase logging].
  rewrite loggingMiddleware_Uppercase_run.
  cbn [loggingMiddleware.next Uppercase stringService].
  rewrite (Hr (tick (tick w))).
  cbn zeta.
  cbn [instrumentingMiddleware.requestCount instrumentingMiddleware.requestLatency
       loggingMiddleware.logger
       trace reads clock emit tick final time_Now snd].
  eexists; eexists; eexists. split; [apply Hr|]. split; [reflexivity|].
  cbn [trace reads clock].
  split; [rewrite <- app_assoc; reflexivity|].
  split; [reflexivity|]. split; [reflexivity|].
  unfold elapsed, emit. cbn [clock reads].
  pose proof (Hm (reads w) (Datatypes.S (reads w)) ltac:(lia)).
  pose proof (Hm (Datatypes.S (reads w)) (Datatypes.S (Datatypes.S (reads w))) ltac:(lia)).
  pose proof (Hm (Datatypes.S (Datatypes.S (reads w)))
                 (Datatypes.S (Datatypes.S (Datatypes.S (reads w)))) ltac:(lia)).
  pose proof (Sub_nonneg_le
                (clock w (Datatypes.S (Datatypes.S (Datatypes.S (reads w)))))
                (clock w (Datatypes.S (Datatypes.S (reads w))))
                (clock w (Datatypes.S (reads w)))
                (clock w (reads w))
                ltac:(assumption) ltac:(assumption) ltac:(assumption)).
  lia.
Qed.

(** X9.  In a world whose clock never runs backwards, [Count] through the
    wired service returns, on every input, what the bare service returns,
    reads the clock four times and emits, in this order, one log line
    (operation, input, count, duration), one increment of the request
    counter and one observation of the latency, both labelled
    [method = count, error = false], and one observation of the count on
    the result histogram.  The duration behind the observed latency is at
    least the duration logged. *)
Theorem svc_Count_events (s : string) (w : World) :
  monotone_clock w ->
  exists n err logged observed w1,
    stringService_Count s w = (Returned (n, err), w) /\
    Count svc s w = (Returned (n, err), w1) /\
    trace w1
    = (trace w
       ++ [ LogEvent logger
              [ any_string "method"; any_string "count";
                any_string "input"; any_string s;
                any_string "n"; any_int n;
                any_string "took"; any_Duration logged ];
            AddEvent
              (Counter_With requestCount ["method"; "count"; "error"; "false"])
              (float64_of_int 1);
            ObserveEvent
              (Histogram_With requestLatency ["method"; "count"; "error"; "false"])
              (time.Seconds observed);
            ObserveEvent countResult (float64_of_int n) ])%list /\
    reads w1 = (4 + reads w)%nat /\
    clock w1 = clock w /\
    0 <= logged <= observed.
Proof.
  intros Hm.
  destruct (stringService_Count_returns s) as [[n err] Hr].
  exists n, err.
  unfold svc. cbn [Count instrumenting].
  rewrite instrumentingMiddleware_Count_run.
  cbn [instrumentingMiddleware.next Count logging].
  rewrite loggingMiddleware_Count_run.
  cbn [loggingMiddleware.next Count stringService].
  rewrite (Hr (tick (tick w))).
  cbn zeta.
  cbn [instrumentingMiddleware.requestCount instrumentingMiddleware.requestLatency
       instrumentingMiddleware.countResult loggingMiddleware.logger
       trace reads clock emit tick final time_Now snd].
  eexists; eexists; eexists. split; [apply Hr|]. split; [reflexivity|].
  cbn [trace reads clock].
  split; [rewrite <- app_assoc; reflexivity|].
  split; [reflexivity|]. split; [reflexivity|].
  unfold elapsed, emit. cbn [clock reads].
  pose proof (Hm (reads w) (Datatypes.S (reads w)) ltac:(lia)).
  pose proof (Hm (Datatypes.S (reads w)) (Datatypes.S (Datatypes.S (reads w))) ltac:(lia)).
  pose proof (Hm (Datatypes.S (Datatypes.S (reads w)))
                 (Datatypes.S (Datatypes.S (Datatypes.S (reads w)))) ltac:(lia)).
  pose proof (Sub_nonneg_le
                (clock w (Datatypes.S (Datatypes.S (Datatypes.S (reads w)))))
                (clock w (Datatypes.S (Datatypes.S (reads w))))
                (clock w (Datatypes.S (reads w)))
                (clock w (reads w))
                ltac:(assumption) ltac:(assumption) ltac:(assumption)).
  lia.
Qed.

(** X10.  The order of the decorators shows in the trace.  When the wrapped
    [Uppercase] returns, the events of the inner decorator come first:
    with the logging middleware inside (as [main] wires it) the log line
    precedes the increment and the observation, with the instrumenting
    middleware inside it follows them.  Both orders return the same pair. *)
Theorem decorators_emit_inside_out
        (impl : IStringService) (l : Logger) (c : Counter) (h : Histogram)
        (h' : Histogram) (s : string) (w w1 : World) (output : string) (err : error) :
  Uppercase impl s (tick (tick w)) = (Returned (output, err), w1) ->
  let logged := logging (loggingMiddleware.mk l impl) in
  let measured := instrumenting (instrumentingMiddleware.mk c h h' impl) in
  let lvs := ["method"; "uppercase"; "error"; Sprint_bool (negb (is_nil err))] in
  (exists line took w2,
      Uppercase (instrumenting (instrumentingMiddleware.mk c h h' logged)) s w
      = (Returned (output, err), w2) /\
      trace w2
      = (trace w1
         ++ [ LogEvent l line;
              AddEvent (Counter_With c lvs) (float64_of_int 1);
              ObserveEvent (Histogram_With h lvs) (time.Seconds took) ])%list /\
      lookup_key "output" line = Some (any_string output)) /\
  (exists line took w2,
      Uppercase (logging (loggingMiddleware.mk l measured)) s w
      = (Returned (output, err), w2) /\
      trace w2
      = (trace w1
         ++ [ AddEvent (Counter_With c lvs) (float64_of_int 1);
              ObserveEvent (Histogram_With h lvs) (time.Seconds took);
              LogEvent l line ])%list /\
      lookup_key "output" line = Some (any_string output)).
Proof.
  intros H. cbn zeta. split.
  - cbn [Uppercase instrumenting].
    rewrite instrumentingMiddleware_Uppercase_run.
    cbn [instrumentingMiddleware.next Uppercase logging].
    rewrite loggingMiddleware_Uppercase_run.
    cbn [loggingMiddleware.next]. rewrite H. cbn zeta.
    cbn [instrumentingMiddleware.requestCount instrumentingMiddleware.requestLatency
         loggingMiddleware.logger trace reads clock emit tick final time_Now snd].
    eexists; eexists; eexists. split; [reflexivity|].
    unfold emit, tick, final, time_Now; cbn [trace snd].
    split; [rewrite <- ?app_assoc; reflexivity|]. reflexivity.
  - cbn [Uppercase logging].
    rewrite loggingMiddleware_Uppercase_run.
    cbn [loggingMiddleware.next Uppercase instrumenting].
    rewrite instrumentingMiddleware_Uppercase_run.
    cbn [instrumentingMiddleware.next]. rewrite H. cbn zeta.
    cbn [instrumentingMiddleware.requestCount instrumentingMiddleware.requestLatency
         loggingMiddleware.logger trace reads clock emit tick final time_Now snd].
    eexists; eexists; eexists. split; [reflexivity|].
    unfold emit, tick, final, time_Now; cbn [trace snd].
    split; [rewrite <- ?app_assoc; reflexivity|]. reflexivity.
Qed.

(** ** The service and the characters of its input *)

Lemma DecodeRune_size (c : ascii) (rest : string) :
  (1 <= snd (utf8.DecodeRuneInString (String c rest)) <= 4)%nat.
Proof.
  unfold utf8.DecodeRuneInString.
  repeat match goal with
         | |- context [if ?b then _ else _] => destruct b
         | |- context [match ?x with EmptyString => _ | String _ _ => _ end] =>
           destruct x
         end; cbn [snd]; lia.
Qed.

Lemma runes_from_bytes (s : string) :
  forall skip, (String.length s <= skip + 4 * List.length (utf8.runes_from skip s))%nat.
Proof.
  induction s as [|c rest IH]; intros skip; [simpl; lia|].
  destruct skip as [|k].
  - change (utf8.runes_from 0 (String c rest))
      with (let (r, size) := utf8.DecodeRuneInString (String c rest) in
            r :: utf8.runes_from (Nat.pred size) rest).
    pose proof (DecodeRune_size c rest) as Hsize.
    destruct (utf8.DecodeRuneInString (String c rest)) as [r size].
    cbn [snd] in Hsize. specialize (IH (Nat.pred size)). simpl. lia.
  - specialize (IH k). simpl. lia.
Qed.

(** X11.  On a non-empty input [Count] returns at least the number of
    characters (runes) of the input and at most four times that number: a
    character takes one to four bytes. *)
Theorem Count_between_runes_and_bytes (s : string) (w : World) :
  s <> "" ->
  exists n,
    stringService_Count s w = (Returned (n, nil_error), w) /\
    1 <= utf8.RuneCountInString s <= n /\
    n <= 4 * utf8.RuneCountInString s.
Proof.
  intros Hs. exists (len s). split; [apply Count_nonempty; exact Hs|].
  pose proof (RuneCount_le_len s) as Hle.
  pose proof (runes_from_bytes s 0) as Hge.
  pose proof (len_positive s Hs) as Hpos.
  unfold utf8.RuneCountInString, utf8.runes, len in *. lia.
Qed.

Lemma byte_val_range (c : ascii) : 0 <= byte_val c < 256.
Proof.
  unfold byte_val. pose proof (N_ascii_bounded c). lia.
Qed.

Lemma byte_of_byte_val (c : ascii) : byte_of (byte_val c) = c.
Proof.
  unfold byte_of, byte_val. rewrite N2Z.id. apply ascii_N_embedding.
Qed.

Lemma byte_val_byte_of (z : Z) : 0 <= z < 256 -> byte_val (byte_of z) = z.
Proof.
  intros H. unfold byte_of, byte_val.
  rewrite N_ascii_embedding by lia. lia.
Qed.

Lemma upper_byte_not_lower (c : ascii) : is_lower (upper_byte c) = false.
Proof.
  unfold upper_byte. destruct (is_lower c) eqn:E; [|exact E].
  unfold is_lower, in_range in *. apply andb_true_iff in E as [E1 E2].
  rewrite byte_val_byte_of by lia.
  apply andb_false_iff. left. lia.
Qed.

Lemma upper_byte_ascii (c : ascii) : is_ascii c = true -> is_ascii (upper_byte c) = true.
Proof.
  intros H. unfold upper_byte. destruct (is_lower c) eqn:E; [|exact H].
  unfold is_lower, in_range, is_ascii, utf8.RuneSelf in *.
  apply andb_true_iff in E as [E1 E2].
  rewrite byte_val_byte_of by lia. lia.
Qed.

Lemma map_upper_no_lower_left (s : string) :
  any_byte is_lower (map_bytes upper_byte s) = false.
Proof.
  induction s as [|c rest IH]; cbn [map_bytes any_byte]; [reflexivity|].
  rewrite upper_byte_not_lower, IH. reflexivity.
Qed.

Lemma map_upper_ascii (s : string) :
  all_bytes is_ascii s = true -> all_bytes is_ascii (map_bytes upper_byte s) = true.
Proof.
  induction s as [|c rest IH]; cbn [map_bytes all_bytes]; [reflexivity|].
  intros H. apply andb_true_iff in H as [Hc Hrest].
  rewrite (upper_byte_ascii c Hc), (IH Hrest). reflexivity.
Qed.

(** X12.  On non-empty ASCII text [Uppercase] returns the text with each
    lower-case letter replaced by its upper-case one and every other byte
    kept: the result has no lower-case letter, [Uppercase] returns it
    unchanged when called on it, and [Count] is the same on the result as
    on the input. *)
Theorem Uppercase_on_ascii (s : string) (w : World) :
  all_bytes is_ascii s = true ->
  s <> "" ->
  exists u,
    stringService_Uppercase s w = (Returned (u, nil_error), w) /\
    u = map_bytes upper_byte s /\
    any_byte is_lower u = false /\
    stringService_Uppercase u w = (Returned (u, nil_error), w) /\
    stringService_Count u w = stringService_Count s w /\
    stringService_Count u w = (Returned (len s, nil_error), w).
Proof.
  intros Ha Hs. exists (map_bytes upper_byte s).
  assert (Hu : map_bytes upper_byte s <> "").
  { destruct s; [congruence|discriminate]. }
  assert (Hlen : len (map_bytes upper_byte s) = len s).
  { unfold len. rewrite map_bytes_length. reflexivity. }
  split; [rewrite (Uppercase_nonempty s w Hs), (strings_ToUpper_ascii s Ha); reflexivity|].
  split; [reflexivity|]. split; [apply map_upper_no_lower_left|].
  split.
  - rewrite (Uppercase_nonempty _ w Hu).
    rewrite (strings_ToUpper_ascii _ (map_upper_ascii s Ha)).
    rewrite (map_upper_no_lower _ (map_upper_no_lower_left s)). reflexivity.
  - rewrite (Count_nonempty _ w Hu), (Count_nonempty s w Hs), Hlen. split; reflexivity.
Qed.

(** ** The decoders *)

Lemma append_assoc_string (a b c : string) : ((a ++ b) ++ c = a ++ (b ++ c))%string.
Proof. induction a; simpl; congruence. Qed.

Lemma length_append_string (a b : string) :
  String.length (a ++ b) = (String.length a + String.length b)%nat.
Proof. induction a; simpl; congruence. Qed.

Lemma tokens_from_skip (p r : string) :
  json.tokens_from (String.length p) (p ++ r) = json.tokens_from 0 r.
Proof. induction p as [|c p IH]; [reflexivity|exact IH]. Qed.

Lemma lex_string_plain (s : string) :
  all_bytes json_plain s = true ->
  forall acc width rest,
    json.lex_string json.SText acc width (s ++ String json.dquote rest)
    = (Some ((rev acc ++ map json.Raw (list_ascii_of_string s))%list,
             (width + String.length s + 1)%nat), false).
Proof.
  induction s as [|c s IH]; intros H acc width rest.
  - cbn [append json.lex_string list_ascii_of_string map String.length].
    rewrite Ascii.eqb_refl, app_nil_r.
    replace (width + 0 + 1)%nat with (Datatypes.S width) by lia. reflexivity.
  - cbn [all_bytes] in H. apply andb_true_iff in H as [Hc Hs].
    unfold json_plain in Hc.
    apply andb_true_iff in Hc as [Hc Hb]. apply andb_true_iff in Hc as [Hc Hq].
    apply negb_true_iff in Hq, Hb.
    cbn [append json.lex_string]. rewrite Hq, Hb.
    assert (Hlt : (byte_val c <? 32) = false) by lia. rewrite Hlt.
    rewrite (IH Hs). cbn [rev list_ascii_of_string map String.length].
    rewrite <- app_assoc. cbn [app].
    replace (Datatypes.S width + String.length s + 1)%nat
      with (width + Datatypes.S (String.length s) + 1)%nat by lia.
    reflexivity.
Qed.

Lemma unquote_items_raw (l : list ascii) :
  json.unquote_items (map json.Raw l) = string_of_list_ascii l.
Proof. induction l as [|c l IH]; cbn; congruence. Qed.

Lemma tokens_quoted (s rest : string) :
  all_bytes json_plain s = true ->
  json.tokens_from 0 (String json.dquote (s ++ String json.dquote rest))
  = json.TString (json.to_valid_utf8 s) :: json.tokens_from 0 rest.
Proof.
  intros H.
  change (json.tokens_from 0 (String json.dquote (s ++ String json.dquote rest)))
    with (let (t, width) :=
              match json.lex_string json.SText [] 1 (s ++ String json.dquote rest) with
              | (Some (items, width), _) => (json.TString (json.unquote items), width)
              | (None, true) => (json.TTruncated json.dquote, 0%nat)
              | (None, false) => (json.TInvalid, 0%nat)
              end in
          match t with
          | json.TInvalid | json.TTruncated _ => [t]
          | _ => t :: json.tokens_from (Nat.pred width) (s ++ String json.dquote rest)
          end).
  rewrite (lex_string_plain s H). cbn [rev app].
  unfold json.unquote. rewrite unquote_items_raw, string_of_list_ascii_of_string.
  f_equal.
  replace (Nat.pred (1 + String.length s + 1))
    with (String.length (s ++ String json.dquote EmptyString))
    by (rewrite length_append_string; simpl; lia).
  replace (s ++ String json.dquote rest)%string
    with ((s ++ String json.dquote EmptyString) ++ rest)%string
    by (rewrite append_assoc_string; reflexivity).
  apply tokens_from_skip.
Qed.

Lemma body_of_shape (s tail : string) :
  (body_of s ++ tail)%string
  = String "{" (String json.dquote ("s" ++ String json.dquote
      (String ":" (String json.dquote (s ++ String json.dquote (String "}" tail)))))).
Proof.
  unfold body_of, quoted. cbn [append].
  rewrite !append_assoc_string. reflexivity.
Qed.

Lemma scan_body_of (s tail : string) :
  all_bytes json_plain s = true ->
  json.scan (body_of s ++ tail)
  = json.Scanned (json.Object [("s", json.Str (json.to_valid_utf8 s))]).
Proof.
  intros H. unfold json.scan, json.tokens. rewrite body_of_shape.
  change (json.tokens_from 0 (String "{" ?x)) with (json.TLBrace :: json.tokens_from 0 x).
  rewrite (tokens_quoted "s" _ eq_refl).
  change (json.tokens_from 0 (String ":" ?x)) with (json.TColon :: json.tokens_from 0 x).
  rewrite (tokens_quoted s _ H).
  change (json.tokens_from 0 (String "}" tail))
    with (json.TRBrace :: json.tokens_from 0 tail).
  reflexivity.
Qed.

Lemma concat_singletons (l : list ascii) :
  String.concat "" (map (fun c => String c EmptyString) l) = string_of_list_ascii l.
Proof.
  induction l as [|c l IH]; [reflexivity|].
  destruct l as [|d l]; [reflexivity|].
  change (String.concat "" (map (fun c => String c EmptyString) (c :: d :: l)))
    with (String c (String.concat "" (map (fun c => String c EmptyString) (d :: l)))).
  rewrite IH. reflexivity.
Qed.

Lemma EncodeRune_ascii (c : ascii) :
  is_ascii c = true -> utf8.EncodeRune (byte_val c) = String c EmptyString.
Proof.
  intros H. unfold is_ascii, utf8.RuneSelf in H.
  pose proof (byte_val_range c) as Hr.
  unfold utf8.EncodeRune.
  assert (H0 : (byte_val c <? 0) = false) by lia. rewrite H0.
  assert (H1 : (byte_val c <? 128) = true) by lia. rewrite H1.
  rewrite byte_of_byte_val. reflexivity.
Qed.

(** ASCII text is well-formed UTF-8 and is kept as it is. *)
Lemma to_valid_utf8_ascii (s : string) :
  all_bytes is_ascii s = true -> json.to_valid_utf8 s = s.
Proof.
  intros H. unfold json.to_valid_utf8. rewrite (runes_ascii s H), map_map.
  rewrite <- (string_of_list_ascii_of_string s) at 2.
  rewrite <- concat_singletons. f_equal.
  clear - H. induction s as [|c s IH]; [reflexivity|].
  cbn [all_bytes] in H. apply andb_true_iff in H as [Hc Hs].
  cbn [list_ascii_of_string map]. rewrite (EncodeRune_ascii c Hc), (IH Hs). reflexivity.
Qed.

Lemma Decode_body_of (s tail : string) :
  all_bytes json_plain s = true ->
  json.Decode (body_of s ++ tail) "" = (json.to_valid_utf8 s, nil_error).
Proof.
  intros H. unfold json.Decode. rewrite (scan_body_of s tail H). reflexivity.
Qed.

(** X13.  A body [{"s":"..."}] whose string is written with bytes that
    stand for themselves (no control character, double quote or backslash)
    decodes, with a nil error, to the request holding that string (ill-formed
    UTF-8 in it replaced by U+FFFD, so ASCII text is kept as it is); what
    follows the closing brace in the body is not looked at. *)
Theorem decode_body_of (s tail : string) :
  all_bytes json_plain s = true ->
  decodeUppercaseRequest (http.mkRequest (body_of s ++ tail))
    = (any_uppercaseRequest (uppercaseRequest.mk (json.to_valid_utf8 s)), nil_error) /\
  decodeCountRequest (http.mkRequest (body_of s ++ tail))
    = (any_countRequest (countRequest.mk (json.to_valid_utf8 s)), nil_error) /\
  (all_bytes is_ascii s = true -> json.to_valid_utf8 s = s).
Proof.
  intros H. pose proof (Decode_body_of s tail H) as Hd.
  unfold decodeUppercaseRequest, decodeCountRequest.
  cbn [http.Body uppercaseRequest.S countRequest.S]. rewrite Hd.
  repeat split. apply to_valid_utf8_ascii.
Qed.

Lemma store_members_spec (ms : list (string * json.value)) :
  forall field saved,
    json.store_members ms field saved
    = (last_s ms field,
       if is_nil saved
       then (if members_storable ms then nil_error else json.UnmarshalTypeError)
       else saved).
Proof.
  induction ms as [|[k v] ms IH]; intros field saved.
  - destruct saved; reflexivity.
  - unfold members_storable in *.
    cbn [json.store_members last_s forallb fst snd].
    destruct (json.selects_s k) eqn:Hk; cbn [negb orb andb].
    + destruct v; cbn [json.store_string storable andb]; rewrite IH;
        destruct saved; reflexivity.
    + destruct v; rewrite IH; reflexivity.
Qed.

Lemma Decode_spec (body : string) :
  json.Decode body ""
  = (decoded_s body,
     snd (json.Decode body "")) /\
  (decodable body = true <-> snd (json.Decode body "") = nil_error).
Proof.
  unfold json.Decode, decoded_s, decodable.
  destruct (json.scan body) as [v| | |]; cbn [snd];
    try (split; [reflexivity | split; discriminate]).
  destruct v as [| | | | |ms]; cbn [json.unmarshal snd];
    try (split; [reflexivity | split; (discriminate || reflexivity)]).
  rewrite store_members_spec. cbn [is_nil snd]. split; [reflexivity|].
  destruct (members_storable ms); split; (discriminate || reflexivity).
Qed.

(** *** The scanner on canonical texts *)

Lemma parse_scalar (stack : list json.frame) (m : json.mode) (t : json.token)
      (ts : list json.token) (v : json.value) :
  value_mode m = true -> json.scalar_of t = Some v ->
  json.parse stack m (t :: ts) = resume v stack ts.
Proof.
  intros Hm Ht. unfold resume.
  destruct m; try discriminate; destruct t; try discriminate;
    injection Ht as <-; reflexivity.
Qed.

Lemma parse_open_array (stack : list json.frame) (m : json.mode) (ts : list json.token) :
  value_mode m = true ->
  json.parse stack m (json.TLBrack :: ts)
  = if json.within_depth stack
    then json.parse (json.FArray [] :: stack) json.MValueOrClose ts
    else json.SyntaxError.
Proof. intros Hm. destruct m; try discriminate; reflexivity. Qed.

Lemma parse_open_object (stack : list json.frame) (m : json.mode) (ts : list json.token) :
  value_mode m = true ->
  json.parse stack m (json.TLBrace :: ts)
  = if json.within_depth stack
    then json.parse (json.FObject [] None :: stack) json.MKeyOrClose ts
    else json.SyntaxError.
Proof. intros Hm. destruct m; try discriminate; reflexivity. Qed.

Lemma parse_close_array (stack : list json.frame) (es : list json.value)
      (m : json.mode) (ts : list json.token) :
  m = json.MAfterValue \/ m = json.MValueOrClose ->
  json.parse (json.FArray es :: stack) m (json.TRBrack :: ts)
  = resume (json.Array (rev es)) stack ts.
Proof. intros [-> | ->]; reflexivity. Qed.

Lemma parse_close_object (stack : list json.frame) (ms : list (string * json.value))
      (m : json.mode) (ts : list json.token) :
  m = json.MAfterValue \/ m = json.MKeyOrClose ->
  json.parse (json.FObject ms None :: stack) m (json.TRBrace :: ts)
  = resume (json.Object (rev ms)) stack ts.
Proof. intros [-> | ->]; reflexivity. Qed.

Lemma parse_comma_array (stack : list json.frame) (es : list json.value)
      (ts : list json.token) :
  json.parse (json.FArray es :: stack) json.MAfterValue (json.TComma :: ts)
  = json.parse (json.FArray es :: stack) json.MValue ts.
Proof. reflexivity. Qed.

Lemma parse_comma_object (stack : list json.frame) (ms : list (string * json.value))
      (ts : list json.token) :
  json.parse (json.FObject ms None :: stack) json.MAfterValue (json.TComma :: ts)
  = json.parse (json.FObject ms None :: stack) json.MKey ts.
Proof. reflexivity. Qed.

Lemma parse_key (stack : list json.frame) (ms : list (string * json.value))
      (m : json.mode) (k : string) (ts : list json.token) :
  key_mode m = true ->
  json.parse (json.FObject ms None :: stack) m (json.TString k :: json.TColon :: ts)
  = json.parse (json.FObject ms (Some k) :: stack) json.MValue ts.
Proof. intros Hm. destruct m; try discriminate; reflexivity. Qed.

(** Tokens *)

Lemma substring_prefix (a b : string) : substring 0 (String.length a) (a ++ b) = a.
Proof. induction a as [|c a IH]; [destruct b; reflexivity|]. cbn. rewrite IH. reflexivity. Qed.

Lemma number_ends_NInt (c : ascii) (r : string) :
  number_ends (String c r) = true -> json.nstep json.NInt c = None.
Proof.
  destruct c as [[] [] [] [] [] [] [] []]; intros H; cbv in H;
    try discriminate H; reflexivity.
Qed.

Lemma number_ends_NZero (c : ascii) (r : string) :
  number_ends (String c r) = true -> json.nstep json.NZero c = None.
Proof.
  destruct c as [[] [] [] [] [] [] [] []]; intros H; cbv in H;
    try discriminate H; reflexivity.
Qed.

Lemma lex_number_digits (ds rest : string) :
  all_bytes json.is_digit ds = true -> number_ends rest = true ->
  forall width,
    json.lex_number json.NInt width (ds ++ rest)
    = (Some (width + String.length ds)%nat, false).
Proof.
  intros Hd Hr. induction ds as [|c ds IH]; intros width.
  - cbn [append String.length]. rewrite Nat.add_0_r.
    destruct rest as [|c r]; [reflexivity|].
    cbn [json.lex_number]. rewrite (number_ends_NInt c r Hr). reflexivity.
  - cbn [all_bytes] in Hd. apply andb_true_iff in Hd as [Hc Hds].
    cbn [append json.lex_number]. unfold json.nstep at 1. rewrite Hc.
    rewrite (IH Hds). cbn [String.length]. f_equal. f_equal. lia.
Qed.

Lemma lex_number_zero (rest : string) (width : nat) :
  number_ends rest = true ->
  json.lex_number json.NZero width rest = (Some width, false).
Proof.
  intros Hr. destruct rest as [|c r]; [reflexivity|].
  cbn [json.lex_number]. rewrite (number_ends_NZero c r Hr). reflexivity.
Qed.

Lemma nonzero_digit (c : ascii) :
  in_range 49 57 (byte_val c) = true ->
  Ascii.eqb c "0" = false /\ json.is_digit c = true.
Proof.
  unfold json.is_digit, in_range. intros H. apply andb_true_iff in H as [H1 H2].
  split.
  - apply Ascii.eqb_neq. intros ->. cbv in H1. discriminate.
  - apply andb_true_iff. split; lia.
Qed.

Lemma lex_number_sign (r rest : string) (width : nat) :
  nat_literal r = true -> number_ends rest = true ->
  json.lex_number json.NSign width (r ++ rest)
  = (Some (width + String.length r)%nat, false).
Proof.
  intros Hl Hr. destruct r as [|c r]; [discriminate|].
  cbn [nat_literal] in Hl. cbn [append json.lex_number]. unfold json.nstep at 1.
  destruct (Ascii.eqb c "0") eqn:E.
  - apply is_empty_true in Hl. subst r. cbn [append String.length].
    rewrite (lex_number_zero rest _ Hr). f_equal. f_equal. lia.
  - apply andb_true_iff in Hl as [Hc Hds].
    destruct (nonzero_digit c Hc) as [_ Hd]. rewrite Hd.
    rewrite (lex_number_digits r rest Hds Hr). cbn [String.length].
    f_equal. f_equal. lia.
Qed.

Lemma tokens_digit_start (c : ascii) (x : string) :
  in_range 49 57 (byte_val c) = true ->
  json.tokens_from 0 (String c x)
  = match json.lex_number json.NInt 1 x with
    | (Some width, _) =>
      json.TNumber (substring 0 width (String c x))
      :: json.tokens_from (Nat.pred width) x
    | (None, true) => [json.TTruncated c]
    | (None, false) => [json.TInvalid]
    end.
Proof.
  destruct c as [[] [] [] [] [] [] [] []]; intros H; cbv in H; try discriminate H;
    cbn [json.tokens_from json.is_space json.lex_token];
    destruct (json.lex_number json.NInt 1 x) as [[width|] []]; reflexivity.
Qed.

Lemma tokens_int (lit rest : string) :
  int_literal lit = true -> number_ends rest = true ->
  json.tokens_from 0 (lit ++ rest) = json.TNumber lit :: json.tokens_from 0 rest.
Proof.
  intros Hl Hr. destruct lit as [|c r]; [discriminate|].
  cbn [int_literal] in Hl. cbn [append].
  assert (Hsub : substring 0 (1 + String.length r) (String c (r ++ rest)) = String c r).
  { exact (substring_prefix (String c r) rest). }
  destruct (Ascii.eqb c "-") eqn:Es.
  - apply Ascii.eqb_eq in Es. subst c.
    change (json.tokens_from 0 (String "-" (r ++ rest)))
      with (let (t, width) :=
                match json.lex_number json.NSign 1 (r ++ rest) with
                | (Some width, _) =>
                  (json.TNumber (substring 0 width (String "-" (r ++ rest))), width)
                | (None, true) => (json.TTruncated "-", 0%nat)
                | (None, false) => (json.TInvalid, 0%nat)
                end in
            match t with
            | json.TInvalid | json.TTruncated _ => [t]
            | _ => t :: json.tokens_from (Nat.pred width) (r ++ rest)
            end).
    rewrite (lex_number_sign r rest 1 Hl Hr). rewrite Hsub.
    cbn [Nat.add Nat.pred]. rewrite tokens_from_skip. reflexivity.
  - cbn [nat_literal] in Hl. destruct (Ascii.eqb c "0") eqn:Ez.
    + apply Ascii.eqb_eq in Ez. subst c. apply is_empty_true in Hl. subst r.
      cbn [append].
      change (json.tokens_from 0 (String "0" rest))
        with (let (t, width) :=
                  match json.lex_number json.NZero 1 rest with
                  | (Some width, _) =>
                    (json.TNumber (substring 0 width (String "0" rest)), width)
                  | (None, true) => (json.TTruncated "0", 0%nat)
                  | (None, false) => (json.TInvalid, 0%nat)
                  end in
              match t with
              | json.TInvalid | json.TTruncated _ => [t]
              | _ => t :: json.tokens_from (Nat.pred width) rest
              end).
      rewrite (lex_number_zero rest 1 Hr). destruct rest; reflexivity.
    + apply andb_true_iff in Hl as [Hc Hds].
      rewrite (tokens_digit_start c _ Hc).
      rewrite (lex_number_digits r rest Hds Hr). rewrite Hsub.
      cbn [Nat.add Nat.pred]. rewrite tokens_from_skip. reflexivity.
Qed.

Lemma tokens_plain (s rest : string) :
  plain_text s = true ->
  json.tokens_from 0 (quoted s ++ rest) = json.TString s :: json.tokens_from 0 rest.
Proof.
  intros H. apply andb_true_iff in H as [Hp Ha].
  unfold quoted. cbn [append]. rewrite append_assoc_string. cbn [append].
  rewrite (tokens_quoted s rest Hp), (to_valid_utf8_ascii s Ha). reflexivity.
Qed.


Lemma concat_after (close : ascii) (t : string) (ts : list string) (rest : string) :
  ((String.concat "," (t :: ts) ++ String close EmptyString) ++ rest
   = t ++ after close ts rest)%string.
Proof.
  revert t. induction ts as [|u ts IH]; intros t.
  - cbn [String.concat after]. rewrite append_assoc_string. reflexivity.
  - change (String.concat "," (t :: u :: ts))
      with (t ++ "," ++ String.concat "," (u :: ts))%string.
    rewrite !append_assoc_string. cbn [append after]. rewrite <- (IH u).
    rewrite !append_assoc_string. reflexivity.
Qed.

Lemma number_ends_after (close : ascii) (ts : list string) (rest : string) :
  close = "]"%char \/ close = "}"%char -> number_ends (after close ts rest) = true.
Proof. intros [-> | ->]; destruct ts; reflexivity. Qed.


Lemma within_depth_true (stack : list json.frame) (d : Z) :
  0 <= d -> Z.of_nat (List.length stack) + (1 + d) <= json.maxNestingDepth ->
  json.within_depth stack = true.
Proof. unfold json.within_depth. intros. lia. Qed.

Lemma depth_nonneg (v : json.value) : 0 <= depth v.
Proof.
  destruct v as [| | | |vs|ms]; cbn [depth]; try lia.
  - assert (0 <= fold_right (fun x d => Z.max (depth x) d) 0 vs); [|lia].
    induction vs; cbn; lia.
  - assert (0 <= fold_right (fun (kv : string * json.value) d => Z.max (depth (snd kv)) d) 0 ms);
      [|lia].
    induction ms; cbn; lia.
Qed.

Lemma parses_elements (close_stack : list json.frame) (rest : string) (l : list json.value) :
  Forall parses l ->
  forallb canonical l = true ->
  Z.of_nat (List.length close_stack) + 1 + fold_right (fun x d => Z.max (depth x) d) 0 l
    <= json.maxNestingDepth ->
  forall es,
    json.parse (json.FArray es :: close_stack) json.MAfterValue
               (json.tokens_from 0 (after "]" (map render l) rest))
    = resume (json.Array (rev es ++ l)) close_stack (json.tokens_from 0 rest).
Proof.
  induction l as [|y l IH]; intros HP Hc Hd es.
  - cbn [map after].
    change (json.tokens_from 0 (String "]" rest))
      with (json.TRBrack :: json.tokens_from 0 rest).
    rewrite parse_close_array by (left; reflexivity). rewrite app_nil_r. reflexivity.
  - inversion HP as [|? ? Hy Hl]; subst.
    cbn [forallb] in Hc. apply andb_true_iff in Hc as [Hcy Hcl].
    cbn [fold_right] in Hd.
    cbn [map after].
    change (json.tokens_from 0 (String "," ?x)) with (json.TComma :: json.tokens_from 0 x).
    rewrite parse_comma_array.
    rewrite (Hy (json.FArray es :: close_stack) json.MValue _ Hcy eq_refl).
    + unfold resume at 1. cbn [json.deliver].
      rewrite (IH Hl Hcl) by lia.
      cbn [rev]. rewrite <- app_assoc. reflexivity.
    + cbn [List.length]. lia.
    + apply number_ends_after. left; reflexivity.
Qed.


Lemma tokens_member (k : string) (x rest : string) :
  plain_text k = true ->
  json.tokens_from 0 ((quoted k ++ ":" ++ x) ++ rest)
  = json.TString k :: json.TColon :: json.tokens_from 0 (x ++ rest).
Proof.
  intros Hk. rewrite append_assoc_string. rewrite (tokens_plain k _ Hk).
  cbn [append]. reflexivity.
Qed.

Lemma parses_member (stack : list json.frame) (acc : list (string * json.value))
      (m : json.mode) (k : string) (y : json.value) (rest : string) :
  parses y ->
  key_mode m = true ->
  plain_text k = true -> canonical y = true ->
  Z.of_nat (List.length stack) + 1 + depth y <= json.maxNestingDepth ->
  number_ends rest = true ->
  json.parse (json.FObject acc None :: stack) m
             (json.tokens_from 0 (member_text (k, y) ++ rest))
  = json.parse (json.FObject ((k, y) :: acc) None :: stack) json.MAfterValue
               (json.tokens_from 0 rest).
Proof.
  intros Hy Hm Hk Hcy Hd Hr. unfold member_text. cbn [fst snd].
  rewrite (tokens_member k _ rest Hk), (parse_key _ _ m k _ Hm).
  rewrite (Hy (json.FObject acc (Some k) :: stack) json.MValue rest Hcy eq_refl).
  - reflexivity.
  - cbn [List.length]. lia.
  - exact Hr.
Qed.

Lemma parses_members (close_stack : list json.frame) (rest : string)
      (l : list (string * json.value)) :
  Forall (fun kv => parses (snd kv)) l ->
  forallb (fun kv => plain_text (fst kv) && canonical (snd kv)) l = true ->
  Z.of_nat (List.length close_stack) + 1
  + fold_right (fun (kv : string * json.value) d => Z.max (depth (snd kv)) d) 0 l
    <= json.maxNestingDepth ->
  forall acc,
    json.parse (json.FObject acc None :: close_stack) json.MAfterValue
               (json.tokens_from 0 (after "}" (map member_text l) rest))
    = resume (json.Object (rev acc ++ l)) close_stack (json.tokens_from 0 rest).
Proof.
  induction l as [|[k y] l IH]; intros HP Hc Hd acc.
  - cbn [map after].
    change (json.tokens_from 0 (String "}" rest))
      with (json.TRBrace :: json.tokens_from 0 rest).
    rewrite parse_close_object by (left; reflexivity). rewrite app_nil_r. reflexivity.
  - inversion HP as [|? ? Hy Hl]; subst. cbn [snd] in Hy.
    cbn [forallb fst snd] in Hc. apply andb_true_iff in Hc as [Hc Hcl].
    apply andb_true_iff in Hc as [Hk Hcy].
    cbn [fold_right snd] in Hd.
    cbn [map after].
    change (json.tokens_from 0 (String "," ?x)) with (json.TComma :: json.tokens_from 0 x).
    rewrite parse_comma_object.
    rewrite (parses_member close_stack acc json.MKey k y _ Hy eq_refl Hk Hcy).
    + rewrite (IH Hl Hcl) by lia.
      cbn [rev]. rewrite <- app_assoc. reflexivity.
    + lia.
    + apply number_ends_after. right; reflexivity.
Qed.

Lemma render_array_cons (x : json.value) (l : list json.value) (rest : string) :
  (render (json.Array (x :: l)) ++ rest
   = String "[" (render x ++ after "]" (map render l) rest))%string.
Proof.
  rewrite <- (concat_after "]" (render x) (map render l) rest). reflexivity.
Qed.

Lemma render_object_cons (k : string) (x : json.value) (l : list (string * json.value))
      (rest : string) :
  (render (json.Object ((k, x) :: l)) ++ rest
   = String "{" (member_text (k, x) ++ after "}" (map member_text l) rest))%string.
Proof.
  rewrite <- (concat_after "}" (member_text (k, x)) (map member_text l) rest).
  reflexivity.
Qed.

Lemma parses_all (v : json.value) : parses v.
Proof.
  induction v using value_induction; intros stack m rest Hc Hm Hd Hr.
  - change (json.tokens_from 0 (render json.Null ++ rest))
      with (json.TNull :: json.tokens_from 0 rest).
    apply parse_scalar; [exact Hm | reflexivity].
  - destruct b.
    + change (json.tokens_from 0 (render (json.Bool true) ++ rest))
        with (json.TTrue :: json.tokens_from 0 rest).
      apply parse_scalar; [exact Hm | reflexivity].
    + change (json.tokens_from 0 (render (json.Bool false) ++ rest))
        with (json.TFalse :: json.tokens_from 0 rest).
      apply parse_scalar; [exact Hm | reflexivity].
  - cbn [render canonical] in *. rewrite (tokens_int literal rest Hc Hr).
    apply parse_scalar; [exact Hm | reflexivity].
  - cbn [render canonical] in *. rewrite (tokens_plain s rest Hc).
    apply parse_scalar; [exact Hm | reflexivity].
  - cbn [canonical depth] in *.
    assert (Hfold : 0 <= fold_right (fun x d => Z.max (depth x) d) 0 vs).
    { clear. induction vs; cbn; lia. }
    destruct vs as [|x l].
    + change (json.tokens_from 0 (render (json.Array []) ++ rest))
        with (json.TLBrack :: json.TRBrack :: json.tokens_from 0 rest).
      rewrite (parse_open_array _ _ _ Hm), (within_depth_true stack 0) by (cbn in *; lia).
      rewrite parse_close_array by (right; reflexivity). reflexivity.
    + inversion H as [|? ? Hx Hl]; subst.
      cbn [forallb] in Hc. apply andb_true_iff in Hc as [Hcx Hcl].
      cbn [fold_right] in Hd, Hfold.
      rewrite render_array_cons.
      change (json.tokens_from 0 (String "[" ?y)) with (json.TLBrack :: json.tokens_from 0 y).
      rewrite (parse_open_array _ _ _ Hm).
      rewrite (within_depth_true stack (Z.max (depth x)
                 (fold_right (fun x d => Z.max (depth x) d) 0 l))) by lia.
      rewrite (Hx (json.FArray [] :: stack) json.MValueOrClose _ Hcx eq_refl).
      * unfold resume at 1. cbn [json.deliver].
        rewrite (parses_elements stack rest l Hl Hcl) by lia. reflexivity.
      * cbn [List.length]. lia.
      * apply number_ends_after. left; reflexivity.
  - cbn [canonical depth] in *.
    assert (Hfold : 0 <= fold_right (fun (kv : string * json.value) d =>
                                       Z.max (depth (snd kv)) d) 0 ms).
    { clear. induction ms; cbn; lia. }
    destruct ms as [|[k x] l].
    + change (json.tokens_from 0 (render (json.Object []) ++ rest))
        with (json.TLBrace :: json.TRBrace :: json.tokens_from 0 rest).
      rewrite (parse_open_object _ _ _ Hm), (within_depth_true stack 0) by (cbn in *; lia).
      rewrite parse_close_object by (right; reflexivity). reflexivity.
    + inversion H as [|? ? Hx Hl]; subst. cbn [snd] in Hx.
      cbn [forallb fst snd] in Hc. apply andb_true_iff in Hc as [Hc Hcl].
      apply andb_true_iff in Hc as [Hk Hcx].
      cbn [fold_right snd] in Hd, Hfold.
      rewrite render_object_cons.
      change (json.tokens_from 0 (String "{" ?y)) with (json.TLBrace :: json.tokens_from 0 y).
      rewrite (parse_open_object _ _ _ Hm).
      rewrite (within_depth_true stack (Z.max (depth x)
                 (fold_right (fun (kv : string * json.value) d =>
                                Z.max (depth (snd kv)) d) 0 l))) by lia.
      rewrite (parses_member stack [] json.MKeyOrClose k x _ Hx eq_refl Hk Hcx).
      * rewrite (parses_members stack rest l Hl Hcl) by lia. reflexivity.
      * lia.
      * apply number_ends_after. right; reflexivity.
Qed.

(** The scanner reads back what [render] writes. *)
Lemma scan_render (v : json.value) (tail : string) :
  canonical v = true -> depth v <= json.maxNestingDepth -> number_ends tail = true ->
  json.scan (render v ++ tail) = json.Scanned v.
Proof.
  intros Hc Hd Hr. unfold json.scan, json.tokens.
  rewrite (parses_all v [] json.MValue tail Hc eq_refl) by (cbn [List.length]; lia || exact Hr).
  reflexivity.
Qed.


Lemma parse_too_deep (k : nat) (rest : string) :
  forall stack m,
    value_mode m = true ->
    Z.of_nat (List.length stack) <= json.maxNestingDepth ->
    json.maxNestingDepth < Z.of_nat (List.length stack) + Z.of_nat k ->
    json.parse stack m (json.tokens_from 0 (nest k rest)) = json.SyntaxError.
Proof.
  induction k as [|k IH]; intros stack m Hm Hle Hgt; [lia|].
  cbn [nest].
  change (json.tokens_from 0 (String "[" ?y)) with (json.TLBrack :: json.tokens_from 0 y).
  rewrite (parse_open_array _ _ _ Hm). unfold json.within_depth.
  destruct (Z.of_nat (List.length stack) + 1 <=? json.maxNestingDepth) eqn:E; [|reflexivity].
  apply IH; [reflexivity | cbn [List.length]; lia | cbn [List.length]; lia].
Qed.

Lemma scan_too_deep (k : nat) (rest : string) :
  json.maxNestingDepth < Z.of_nat k -> json.scan (nest k rest) = json.SyntaxError.
Proof.
  intros H. unfold json.scan, json.tokens.
  apply parse_too_deep; [reflexivity | cbn; unfold json.maxNestingDepth; lia | cbn; lia].
Qed.

Lemma scan_member_too_deep (key : string) (k : nat) (rest : string) :
  plain_text key = true ->
  json.maxNestingDepth <= Z.of_nat k ->
  json.scan ("{" ++ quoted key ++ ":" ++ nest k rest) = json.SyntaxError.
Proof.
  intros Hk H. unfold json.scan, json.tokens. cbn [append].
  change (json.tokens_from 0 (String "{" ?y)) with (json.TLBrace :: json.tokens_from 0 y).
  rewrite (tokens_plain key _ Hk). cbn [append].
  change (json.tokens_from 0 (String ":" ?y)) with (json.TColon :: json.tokens_from 0 y).
  rewrite (parse_open_object [] json.MValue _ eq_refl).
  change (json.within_depth []) with true. cbv iota.
  rewrite (parse_key [] [] json.MKeyOrClose key _ eq_refl).
  apply parse_too_deep; [reflexivity | cbn; unfold json.maxNestingDepth; lia | cbn [List.length]; lia].
Qed.

Lemma unmarshal_spec (v : json.value) :
  json.unmarshal v ""
  = (field_of v, if accepted v then nil_error else json.UnmarshalTypeError).
Proof.
  destruct v as [| | | | |ms]; try reflexivity.
  cbn [json.unmarshal field_of accepted]. rewrite store_members_spec. reflexivity.
Qed.

(** X14.  The decoders on canonical JSON texts.  For every value whose
    strings and member names are plain ASCII text and whose numbers are
    integer literals, nested no deeper than the scanner's limit, the text of
    the value, followed by anything that cannot go on a number, scans back
    to the value; the decoders accept it exactly when the value is [null] or
    an object in which every member for [S] holds a string or [null], and
    then give the request with the string of the last such member that holds
    one (the empty request when there is none); on any other value they give
    a nil request and a type error. *)
Theorem decoders_accept_exactly (v : json.value) (tail : string) :
  canonical v = true ->
  depth v <= json.maxNestingDepth ->
  number_ends tail = true ->
  json.scan (render v ++ tail) = json.Scanned v /\
  decodeUppercaseRequest (http.mkRequest (render v ++ tail))
  = (if accepted v
     then (any_uppercaseRequest (uppercaseRequest.mk (field_of v)), nil_error)
     else (any_nil, json.UnmarshalTypeError)) /\
  decodeCountRequest (http.mkRequest (render v ++ tail))
  = (if accepted v
     then (any_countRequest (countRequest.mk (field_of v)), nil_error)
     else (any_nil, json.UnmarshalTypeError)).
Proof.
  intros Hc Hd Hr. pose proof (scan_render v tail Hc Hd Hr) as Hs.
  split; [exact Hs|].
  unfold decodeUppercaseRequest, decodeCountRequest, json.Decode.
  cbn [http.Body uppercaseRequest.S countRequest.S].
  rewrite Hs, unmarshal_spec. destruct (accepted v); split; reflexivity.
Qed.

(** X17.  Nesting beyond the scanner's limit.  A body that opens more than
    10000 arrays inside each other, and a body holding an object one of
    whose members opens 10000 or more, is refused whatever follows: both
    decoders give a nil request and a syntax error, and both handlers end in
    a transport error without calling the service. *)
Theorem deep_bodies_are_refused (k : nat) (key rest : string) (w : World) :
  json.maxNestingDepth < Z.of_nat k ->
  plain_text key = true ->
  let bodies := [nest k rest; ("{" ++ quoted key ++ ":" ++ nest (Nat.pred k) rest)%string] in
  forall body, In body bodies ->
    decodeUppercaseRequest (http.mkRequest body) = (any_nil, json.syntax_error) /\
    decodeCountRequest (http.mkRequest body) = (any_nil, json.syntax_error) /\
    uppercaseHandler (http.mkRequest body) w
      = (Returned (TransportError json.syntax_error), w) /\
    countHandler (http.mkRequest body) w
      = (Returned (TransportError json.syntax_error), w).
Proof.
  intros Hk Hkey bodies body Hin.
  assert (Hs : json.scan body = json.SyntaxError).
  { destruct Hin as [<- | [<- | []]].
    - apply scan_too_deep. exact Hk.
    - apply scan_member_too_deep; [exact Hkey | lia]. }
  unfold uppercaseHandler, countHandler, ServeHTTP,
    decodeUppercaseRequest, decodeCountRequest, json.Decode.
  cbn [http.Body uppercaseRequest.S countRequest.S]. rewrite Hs.
  repeat split.
Qed.

(** X15.  A handler of the wired service never panics.  On a body the
    decoder does not accept it ends in a transport error without calling
    the service: nothing is logged or measured.  On any other body it calls
    the service on the decoded string and hands the response of the endpoint
    to the encoder: the value with an empty [Err], or the message of the
    error with the empty string (for [Count]: -1) as [V]. *)
Theorem handlers_never_panic (body : string) (w : World) :
  (if decodable body
   then exists output err w1,
       Uppercase svc (decoded_s body) w = (Returned (output, err), w1) /\
       uppercaseHandler (http.mkRequest body) w
       = (Returned (Encoded (any_uppercaseResponse
                               (if is_nil err then uppercaseResponse.mk output ""
                                else uppercaseResponse.mk "" (Error err)))), w1)
   else exists err, err <> nil_error /\
                    uppercaseHandler (http.mkRequest body) w
                    = (Returned (TransportError err), w)) /\
  (if decodable body
   then exists n err w1,
       Count svc (decoded_s body) w = (Returned (n, err), w1) /\
       countHandler (http.mkRequest body) w
       = (Returned (Encoded (any_countResponse
                               (if is_nil err then countResponse.mk n ""
                                else countResponse.mk (-1) (Error err)))), w1)
   else exists err, err <> nil_error /\
                    countHandler (http.mkRequest body) w
                    = (Returned (TransportError err), w)).
Proof.
  destruct (Decode_spec body) as [Hd Hiff].
  unfold uppercaseHandler, countHandler, ServeHTTP,
    decodeUppercaseRequest, decodeCountRequest.
  cbn [http.Body uppercaseRequest.S countRequest.S]. rewrite Hd.
  destruct (decodable body).
  - rewrite (proj1 Hiff eq_refl). cbn [is_nil negb].
    destruct (svc_Uppercase_returns (decoded_s body) w)
      as ([output eu] & wu & ? & _ & Hsu & _).
    destruct (svc_Count_returns (decoded_s body) w)
      as ([n ec] & wc & ? & _ & Hsc & _).
    split.
    + exists output, eu, wu. split; [exact Hsu|].
      unfold bind, uppercaseEndpoint.
      rewrite (makeUppercaseEndpoint_returned _ _ _ _ _ _ Hsu). reflexivity.
    + exists n, ec, wc. split; [exact Hsc|].
      unfold bind, countEnpoint.
      rewrite (makeCountEndpoint_returned _ _ _ _ _ _ Hsc). reflexivity.
  - destruct (snd (json.Decode body "")) as [|text] eqn:E.
    + destruct Hiff as [_ Hiff]. discriminate (Hiff eq_refl).
    + split; exists (errors_New text); split; (discriminate || reflexivity).
Qed.

(** X16.  End to end: on a body [{"s":"..."}] holding non-empty ASCII text
    written with bytes that stand for themselves, the count handler answers
    with the number of bytes of the text and the uppercase handler with the
    text in upper case, both with an empty [Err] and after the three (for
    [Count]: four) events of the wired service. *)
Theorem handlers_answer_plain_text (s tail : string) (w : World) :
  all_bytes json_plain s = true ->
  all_bytes is_ascii s = true ->
  s <> "" ->
  (exists w1 events,
      countHandler (http.mkRequest (body_of s ++ tail)) w
      = (Returned (Encoded (any_countResponse (countResponse.mk (len s) ""))), w1) /\
      trace w1 = (trace w ++ events)%list /\ List.length events = 4%nat) /\
  (exists w1 events,
      uppercaseHandler (http.mkRequest (body_of s ++ tail)) w
      = (Returned (Encoded (any_uppercaseResponse
                              (uppercaseResponse.mk (map_bytes upper_byte s) ""))), w1) /\
      trace w1 = (trace w ++ events)%list /\ List.length events = 3%nat).
Proof.
  intros Hp Ha Hs.
  pose proof (Decode_body_of s tail Hp) as Hd.
  rewrite (to_valid_utf8_ascii s Ha) in Hd.
  unfold uppercaseHandler, countHandler, ServeHTTP,
    decodeUppercaseRequest, decodeCountRequest.
  cbn [http.Body uppercaseRequest.S countRequest.S]. rewrite Hd. cbn [is_nil negb].
  split.
  - destruct (svc_Count_returns s w) as (r & w1 & events & Hb & Hsvc & Ht & Hn).
    rewrite (Count_nonempty s w Hs) in Hb. injection Hb as <-.
    exists w1, events. split; [|split; assumption].
    unfold bind, countEnpoint.
    rewrite (makeCountEndpoint_returned _ _ _ _ _ _ Hsvc). reflexivity.
  - destruct (svc_Uppercase_returns s w) as (r & w1 & events & Hb & Hsvc & Ht & Hn).
    rewrite (Uppercase_nonempty s w Hs), (strings_ToUpper_ascii s Ha) in Hb.
    injection Hb as <-.
    exists w1, events. split; [|split; assumption].
    unfold bind, uppercaseEndpoint.
    rewrite (makeUppercaseEndpoint_returned _ _ _ _ _ _ Hsvc). reflexivity.
Qed.

End Program.

(** ** Concrete runs *)

(** C1, as stated, fails on a character that takes two bytes: the string
    made of the one character U+00E9 is not empty and has one character,
    and [Count] returns 2 for it. *)
Lemma Count_is_not_character_length :
  e_acute <> "" /\
  utf8.runes e_acute = [0xE9] /\
  utf8.RuneCountInString e_acute = 1 /\
  stringService_Count e_acute world0 = (Returned (2, nil_error), world0) /\
  stringService_Count e_acute world0
    <> (Returned (utf8.RuneCountInString e_acute, nil_error), world0).
Proof.
  repeat split; try discriminate.
Qed.

(** [Count("hello")] is 5. *)
Lemma Count_returns_byte_length_hello :
  "hello" <> "" /\
  stringService_Count "hello" world0 = (Returned (5, nil_error), world0).
Proof.
  split; [discriminate|].
  exact (proj1 (Count_returns_byte_length no_case_tables "hello" world0
                  ltac:(discriminate))).
Defined.

(** [Uppercase("hello")] is "HELLO". *)
Lemma Uppercase_hello :
  "hello" <> "" /\
  stringService_Uppercase no_case_tables "hello" world0
  = (Returned ("HELLO", nil_error), world0).
Proof.
  split; [discriminate|].
  exact (proj2 (Uppercase_empty_or_upper no_case_tables "hello" world0)
               ltac:(discriminate)).
Defined.

(** [Count("")] through the instrumenting middleware over the bare service
    observes the value of -1 on the result histogram. *)
Lemma countResult_observes_sentinel :
  let mw :=
    instrumentingMiddleware.mk requestCount requestLatency countResult
      (stringService no_case_tables) in
  Count (instrumentingMiddleware.next mw) "" (tick world0)
    = (Returned (-1, errors_New "Empty string"), tick world0) /\
  exists w2,
    instrumentingMiddleware_Count mw "" world0
      = (Returned (-1, errors_New "Empty string"), w2) /\
    trace w2
    = [ AddEvent (Counter_With requestCount ["method"; "count"; "error"; "false"])
                 (float64_of_int 1);
        ObserveEvent (Histogram_With requestLatency ["method"; "count"; "error"; "false"])
                     (time.Seconds (elapsed world0 (tick world0)));
        ObserveEvent countResult (float64_of_int (-1)) ].
Proof.
  split; [reflexivity|].
  exact (proj1 (countResult_observes_returned no_case_tables
                  (instrumentingMiddleware.mk requestCount requestLatency countResult
                     (stringService no_case_tables))
                  "" world0 (tick world0) (-1) (errors_New "Empty string")
                  eq_refl)).
Defined.

(** The body [{}] decodes to a request with an empty [S]. *)
Lemma empty_object_decodes_to_empty :
  omits_s "{}" = true /\
  decodeUppercaseRequest (http.mkRequest "{}")
    = (any_uppercaseRequest (uppercaseRequest.mk ""), nil_error).
Proof.
  split; [reflexivity|].
  exact (proj1 (absent_s_decodes_to_empty no_case_tables "{}" world0 eq_refl)).
Defined.

(** The scenarios of the two routes, served by the wired service. *)
Example post_uppercase_hello :
  result (uppercaseHandler no_case_tables (http.mkRequest (body_of "hello")) world0)
  = Returned (Encoded (any_uppercaseResponse (uppercaseResponse.mk "HELLO" ""))).
Proof. reflexivity. Qed.

Example post_count_hello :
  result (countHandler no_case_tables (http.mkRequest (body_of "hello")) world0)
  = Returned (Encoded (any_countResponse (countResponse.mk 5 ""))).
Proof. reflexivity. Qed.

Example post_uppercase_empty :
  result (uppercaseHandler no_case_tables (http.mkRequest (body_of "")) world0)
  = Returned (Encoded (any_uppercaseResponse
                         (uppercaseResponse.mk "" "Empty string"))).
Proof. reflexivity. Qed.

Example post_count_empty :
  result (countHandler no_case_tables (http.mkRequest (body_of "")) world0)
  = Returned (Encoded (any_countResponse (countResponse.mk (-1) "Empty string"))).
Proof. reflexivity. Qed.

Example post_count_e_acute :
  result (countHandler no_case_tables (http.mkRequest (body_of e_acute)) world0)
  = Returned (Encoded (any_countResponse (countResponse.mk 2 ""))).
Proof. reflexivity. Qed.

(** What [Count("")] through the wired service leaves behind, in full: the
    log line without [err], the increment and the latency under
    [error = "false"], and -1 on the result histogram. *)
Example post_count_empty_trace :
  trace (final (Count (svc no_case_tables) "" world0))
  = [ LogEvent (NewLogfmtLogger os_Stderr)
        [ any_string "method"; any_string "count";
          any_string "input"; any_string "";
          any_string "n"; any_int (-1);
          any_string "took"; any_Duration 1000 ];
      AddEvent
        (mkCounter "my_group_string_service_request_count"
                   ["method"; "count"; "error"; "false"])
        (S754_finite false 4503599627370496 (-52));
      ObserveEvent
        (mkHistogram "my_group_string_service_request_latency_microseconds"
                     ["method"; "count"; "error"; "false"])
        (time.Seconds 3000);
      ObserveEvent (mkHistogram "my_group_string_service_count_result" [])
                   (S754_finite true 4503599627370496 (-52)) ].
Proof. reflexivity. Qed.

(** A member named [S] selects the field as well; a body without any such
    member leaves it empty. *)
Example decode_upper_case_key :
  decodeCountRequest (http.mkRequest ("{" ++ quoted "S" ++ ":" ++ quoted "go" ++ "}"))
  = (any_countRequest (countRequest.mk "go"), nil_error).
Proof. reflexivity. Qed.

Example other_member_omits_s :
  omits_s ("{" ++ quoted "text" ++ ": [1, 2.5e3, null]}") = true.
Proof. reflexivity. Qed.

(** ** Concrete runs of the further properties *)

(** Over the wired service, which would log and measure if it were called,
    the uppercase endpoint panics on a count request and the count endpoint
    on an uppercase request, and the trace stays empty. *)
Lemma uppercase_endpoint_rejects_count_request :
  is_uppercaseRequest (any_countRequest (countRequest.mk "hello")) = false /\
  is_countRequest (any_uppercaseRequest (uppercaseRequest.mk "hello")) = false /\
  (exists v,
      makeUppercaseEndpoint (svc no_case_tables)
        (any_countRequest (countRequest.mk "hello")) world0
      = (Panicked v, world0)) /\
  (exists v,
      makeCountEndpoint (svc no_case_tables)
        (any_uppercaseRequest (uppercaseRequest.mk "hello")) world0
      = (Panicked v, world0)).
Proof.
  split; [reflexivity|]. split; [reflexivity|]. split.
  - exact (proj1 (endpoints_reject_other_requests (svc no_case_tables)
                    (any_countRequest (countRequest.mk "hello")) world0) eq_refl).
  - exact (proj2 (endpoints_reject_other_requests (svc no_case_tables)
                    (any_uppercaseRequest (uppercaseRequest.mk "hello")) world0) eq_refl).
Defined.

(** The decorated bare service only appends. *)
Lemma wired_service_only_appends :
  well_behaved (stringService no_case_tables) /\
  well_behaved (svc no_case_tables).
Proof.
  split; [exact (stringService_well_behaved no_case_tables)|].
  exact (proj2 (proj2 (middlewares_only_append (stringService no_case_tables)
                         logger requestCount requestLatency countResult
                         (stringService_well_behaved no_case_tables)))).
Defined.

Lemma world0_monotone : monotone_clock world0.
Proof. intros i j H. unfold world0. cbn [clock]. lia. Defined.

(** [Uppercase("hello")] through the wired service, from [world0]. *)
Lemma svc_Uppercase_hello_events :
  monotone_clock world0 /\
  exists w1,
    Uppercase (svc no_case_tables) "hello" world0 = (Returned ("HELLO", nil_error), w1) /\
    reads w1 = 4%nat /\ List.length (trace w1) = 3%nat.
Proof.
  split; [exact world0_monotone|].
  destruct (svc_Uppercase_events no_case_tables "hello" world0 world0_monotone)
    as (output & err & logged & observed & w1 & Hb & Hs & Ht & Hr & _).
  assert (E : stringService_Uppercase no_case_tables "hello" world0
              = (Returned ("HELLO", nil_error), world0)) by reflexivity.
  rewrite E in Hb. injection Hb as <- <-.
  exists w1. split; [exact Hs|]. split; [exact Hr|]. rewrite Ht. reflexivity.
Defined.

(** [Count("hello")] through the wired service, from [world0]. *)
Lemma svc_Count_hello_events :
  monotone_clock world0 /\
  exists w1,
    Count (svc no_case_tables) "hello" world0 = (Returned (5, nil_error), w1) /\
    reads w1 = 4%nat /\ List.length (trace w1) = 4%nat.
Proof.
  split; [exact world0_monotone|].
  destruct (svc_Count_events no_case_tables "hello" world0 world0_monotone)
    as (n & err & logged & observed & w1 & Hb & Hs & Ht & Hr & _).
  assert (E : stringService_Count "hello" world0
              = (Returned (5, nil_error), world0)) by reflexivity.
  rewrite E in Hb. injection Hb as <- <-.
  exists w1. split; [exact Hs|]. split; [exact Hr|]. rewrite Ht. reflexivity.
Defined.

(** The two orders of the decorators over the bare service, on "hello". *)
Lemma decorators_over_bare_service :
  Uppercase (stringService no_case_tables) "hello" (tick (tick world0))
    = (Returned ("HELLO", nil_error), tick (tick world0)) /\
  exists line took w2,
    Uppercase
      (logging (loggingMiddleware.mk logger
         (instrumenting (instrumentingMiddleware.mk requestCount requestLatency
                           countResult (stringService no_case_tables)))))
      "hello" world0
    = (Returned ("HELLO", nil_error), w2) /\
    trace w2
    = [ AddEvent (Counter_With requestCount ["method"; "uppercase"; "error"; "false"])
                 (float64_of_int 1);
        ObserveEvent (Histogram_With requestLatency
                        ["method"; "uppercase"; "error"; "false"])
                     (time.Seconds took);
        LogEvent logger line ] /\
    lookup_key "output" line = Some (any_string "HELLO").
Proof.
  split; [reflexivity|].
  exact (proj2 (decorators_emit_inside_out (stringService no_case_tables)
                  logger requestCount requestLatency countResult
                  "hello" world0 (tick (tick world0)) "HELLO" nil_error eq_refl)).
Defined.

(** [Count] of the one character U+00E9 lies between 1 and 4. *)
Lemma Count_e_acute_between :
  e_acute <> "" /\
  exists n,
    stringService_Count e_acute world0 = (Returned (n, nil_error), world0) /\
    1 <= utf8.RuneCountInString e_acute <= n /\
    n <= 4 * utf8.RuneCountInString e_acute.
Proof.
  split; [discriminate|].
  exact (Count_between_runes_and_bytes e_acute world0 ltac:(discriminate)).
Defined.

(** [Uppercase] on the ASCII text "Go kit". *)
Lemma Uppercase_on_go_kit :
  all_bytes is_ascii "Go kit" = true /\
  "Go kit" <> "" /\
  exists u,
    stringService_Uppercase no_case_tables "Go kit" world0
      = (Returned (u, nil_error), world0) /\
    u = "GO KIT".
Proof.
  split; [reflexivity|]. split; [discriminate|].
  destruct (Uppercase_on_ascii no_case_tables "Go kit" world0 eq_refl
              ltac:(discriminate)) as (u & Hu & Hmap & _).
  exists u. split; [exact Hu | exact Hmap].
Defined.

(** The body [{"s":"hello"}] followed by other bytes decodes to "hello". *)
Lemma decode_hello_with_trailer :
  all_bytes json_plain "hello" = true /\
  decodeCountRequest (http.mkRequest (body_of "hello" ++ " and more"))
    = (any_countRequest (countRequest.mk "hello"), nil_error).
Proof.
  split; [reflexivity|].
  exact (proj1 (proj2 (decode_body_of "hello" " and more" eq_refl))).
Defined.

(** The handlers on the body [{"s":"hello"}]. *)
Lemma handlers_answer_hello :
  all_bytes json_plain "hello" = true /\
  all_bytes is_ascii "hello" = true /\
  "hello" <> "" /\
  exists w1 events,
    countHandler no_case_tables (http.mkRequest (body_of "hello" ++ "")) world0
    = (Returned (Encoded (any_countResponse (countResponse.mk 5 ""))), w1) /\
    trace w1 = (trace world0 ++ events)%list /\ List.length events = 4%nat.
Proof.
  split; [reflexivity|]. split; [reflexivity|]. split; [discriminate|].
  exact (proj1 (handlers_answer_plain_text no_case_tables "hello" "" world0
                  eq_refl eq_refl ltac:(discriminate))).
Defined.

(** C10, as stated, fails on valid JSON bodies without a member named s.
    The body [[]] is a JSON value and has no member at all, yet both
    decoders refuse it and the handlers end in a transport error; the body
    [{"S":"go"}] has no member named s, yet it decodes to the request
    holding "go", which the service answers without error. *)
Lemma valid_body_without_s_is_not_empty_request :
  json.scan "[]" = json.Scanned (json.Array []) /\
  json.UnmarshalTypeError <> nil_error /\
  decodeUppercaseRequest (http.mkRequest "[]") = (any_nil, json.UnmarshalTypeError) /\
  decodeCountRequest (http.mkRequest "[]") = (any_nil, json.UnmarshalTypeError) /\
  uppercaseHandler no_case_tables (http.mkRequest "[]") world0
    = (Returned (TransportError json.UnmarshalTypeError), world0) /\
  countHandler no_case_tables (http.mkRequest "[]") world0
    = (Returned (TransportError json.UnmarshalTypeError), world0) /\
  json.scan (render (json.Object [("S", json.Str "go")]))
    = json.Scanned (json.Object [("S", json.Str "go")]) /\
  forallb (fun kv : string * json.value => negb (String.eqb (fst kv) "s"))
          [("S", json.Str "go")] = true /\
  decodeCountRequest (http.mkRequest (render (json.Object [("S", json.Str "go")])))
    = (any_countRequest (countRequest.mk "go"), nil_error) /\
  result (countHandler no_case_tables
            (http.mkRequest (render (json.Object [("S", json.Str "go")]))) world0)
    = Returned (Encoded (any_countResponse (countResponse.mk 2 ""))).
Proof.
  repeat split; discriminate.
Qed.

(** The decoders on the text of
    [{"text":[1,null],"s":"go"}] followed by other bytes, and on the text
    of [{"s":7}]. *)
Lemma decoders_on_canonical_texts :
  let v := json.Object [("text", json.Array [json.Number "1"; json.Null]);
                        ("s", json.Str "go")] in
  let v' := json.Object [("s", json.Number "7")] in
  canonical v = true /\ depth v <= json.maxNestingDepth /\
  number_ends " and more" = true /\
  canonical v' = true /\ depth v' <= json.maxNestingDepth /\
  decodeCountRequest (http.mkRequest (render v ++ " and more"))
    = (any_countRequest (countRequest.mk "go"), nil_error) /\
  decodeCountRequest (http.mkRequest (render v' ++ ""))
    = (any_nil, json.UnmarshalTypeError).
Proof.
  cbn zeta.
  split; [reflexivity|]. split; [discriminate|]. split; [reflexivity|].
  split; [reflexivity|]. split; [discriminate|]. split.
  - exact (proj2 (proj2 (decoders_accept_exactly
                           (json.Object [("text", json.Array [json.Number "1"; json.Null]);
                                         ("s", json.Str "go")])
                           " and more" eq_refl ltac:(discriminate) eq_refl))).
  - exact (proj2 (proj2 (decoders_accept_exactly
                           (json.Object [("s", json.Number "7")])
                           "" eq_refl ltac:(discriminate) eq_refl))).
Defined.

(** The count handler on 10001 opening brackets. *)
Lemma deep_body_is_refused :
  json.maxNestingDepth < Z.of_nat (Z.to_nat 10001) /\
  plain_text "a" = true /\
  countHandler no_case_tables (http.mkRequest (nest (Z.to_nat 10001) "")) world0
    = (Returned (TransportError json.syntax_error), world0).
Proof.
  split; [reflexivity|]. split; [reflexivity|].
  exact (proj2 (proj2 (proj2
           (deep_bodies_are_refused no_case_tables (Z.to_nat 10001) "a" "" world0
              eq_refl eq_refl (nest (Z.to_nat 10001) "") (or_introl eq_refl))))).
Defined.
